(** * Marketplace schema (app/models.py): field declarations and their validation

    The module under study declares SQLModel classes: persistent entities
    ([table=True]) and transient request shapes ([table=False]).  Every
    class is a list of annotated fields, each carrying the keyword
    arguments of its [Field(...)] call.  The development below keeps that
    shape: a class is a [Model] value whose fields are transcribed one by
    one, and the meaning of the keywords is given by one interpreter,
    [validate_model], following the validation layer the classes run on
    (pydantic 2 under SQLModel): [ge], [le], [max_length], [min_length],
    [max_digits], [decimal_places], [default] and [default_factory] are
    applied; [regex] is carried by the declaration but is not a keyword
    that layer reads, so it is not checked.

    Field data are kept as association lists rather than finite maps: the
    declaration order of the fields is the order in which they are
    validated and in which errors are reported. *)

From Stdlib Require Import ZArith NArith List String Ascii Bool Lia QArith.
Import ListNotations.
Local Open Scope string_scope.
Local Open Scope Z_scope.

(* ------------------------------------------------------------------ *)
(** ** Enumerations *)

Module UserRole.
Inductive t := BUYER | SELLER | ADMIN.
Definition value (r : t) : string :=
  match r with BUYER => "buyer" | SELLER => "seller" | ADMIN => "admin" end.
Definition members : list t := [BUYER; SELLER; ADMIN].
End UserRole.

Module OrderStatus.
Inductive t :=
  PENDING | CONFIRMED | PROCESSING | SHIPPED | DELIVERED | CANCELLED | RETURNED.
Definition value (s : t) : string :=
  match s with
  | PENDING => "pending" | CONFIRMED => "confirmed"
  | PROCESSING => "processing" | SHIPPED => "shipped"
  | DELIVERED => "delivered" | CANCELLED => "cancelled"
  | RETURNED => "returned"
  end.
Definition members : list t :=
  [PENDING; CONFIRMED; PROCESSING; SHIPPED; DELIVERED; CANCELLED; RETURNED].
End OrderStatus.

Module DeliveryStatus.
Inductive t :=
  PENDING | PICKED_UP | IN_TRANSIT | OUT_FOR_DELIVERY | DELIVERED | FAILED | RETURNED.
Definition value (s : t) : string :=
  match s with
  | PENDING => "pending" | PICKED_UP => "picked_up"
  | IN_TRANSIT => "in_transit" | OUT_FOR_DELIVERY => "out_for_delivery"
  | DELIVERED => "delivered" | FAILED => "failed"
  | RETURNED => "returned"
  end.
Definition members : list t :=
  [PENDING; PICKED_UP; IN_TRANSIT; OUT_FOR_DELIVERY; DELIVERED; FAILED; RETURNED].
End DeliveryStatus.

(* ------------------------------------------------------------------ *)
(** ** Exact decimals

    A finite [decimal.Decimal] is a sign, an integer coefficient and a
    power-of-ten exponent ([as_tuple()]); its value is
    [(-1)^sign * coefficient * 10^exponent], an exact rational. *)

Record Decimal := mkDecimal { dsign : bool; dcoef : N; dexp : Z }.

(** The signed coefficient. *)
Definition signed_coef (d : Decimal) : Z :=
  (if dsign d then -1 else 1) * Z.of_N (dcoef d).

Definition Decimal_to_Q (d : Decimal) : Q :=
  let c := (if dsign d then -1 else 1) * Z.of_N (dcoef d) in
  if 0 <=? dexp d then inject_Z (c * 10 ^ dexp d)
  else Qmake c (Z.to_pos (10 ^ (- dexp d))).

(** Length of the digit tuple of a coefficient: [len(as_tuple().digits)];
    the coefficient 0 has the one digit [(0,)]. *)
Fixpoint ndigits_aux (fuel : nat) (n : N) : nat :=
  match fuel with
  | O => 1%nat
  | S fuel' => if (n <? 10)%N then 1%nat else S (ndigits_aux fuel' (n / 10)%N)
  end.

Definition ndigits (n : N) : nat := ndigits_aux (N.to_nat (N.size n)) n.

(** *** The arithmetic context and [Decimal.normalize()]

    The default context: precision 28, rounding half to even, exponents
    between -999999 and 999999. *)
Definition prec : Z := 28.
Definition Emax : Z := 999999.
Definition Emin : Z := -999999.
Definition Etiny : Z := Emin - prec + 1.
Definition Etop : Z := Emax - prec + 1.

(** Rounding to the context ([_fix]): a zero has its exponent brought into
    range; a coefficient of more than [prec] digits, or one below the
    subnormal limit, is rounded half to even; [None] is the Overflow
    error raised beyond [Emax]. *)
Definition Decimal_fix (d : Decimal) : option Decimal :=
  let c := dcoef d in
  let e := dexp d in
  if (c =? 0)%N then Some (mkDecimal (dsign d) 0 (Z.min (Z.max e Etiny) Emax))
  else
    let len := Z.of_nat (ndigits c) in
    if Etop <? len + e - prec then None
    else
      let exp_min := Z.max (len + e - prec) Etiny in
      if e <? exp_min then
        let keep := len + e - exp_min in
        let c1 := if keep <? 0 then 1 else Z.of_N c in
        let dropped := if keep <? 0 then 1 else len - keep in
        let q := c1 / 10 ^ dropped in
        let r := c1 mod 10 ^ dropped in
        let half := 5 * 10 ^ (dropped - 1) in
        let up := (half <? r) || ((r =? half) && Z.odd q) in
        let q1 := if up then q + 1 else q in
        let carry := up && (prec <? Z.of_nat (ndigits (Z.to_N q1))) in
        let q2 := if carry then q1 / 10 else q1 in
        let exp_min2 := if carry then exp_min + 1 else exp_min in
        if Etop <? exp_min2 then None
        else Some (mkDecimal (dsign d) (Z.to_N q2) exp_min2)
      else Some d.

(** Removing trailing zeros of the coefficient, up to exponent [Emax]. *)
Fixpoint strip_zeros (fuel : nat) (c : N) (e : Z) : N * Z :=
  match fuel with
  | O => (c, e)
  | S fuel' =>
      if ((c mod 10 =? 0)%N && (e <? Emax))%bool
      then strip_zeros fuel' (c / 10)%N (e + 1)
      else (c, e)
  end.

Definition normalize (d : Decimal) : option Decimal :=
  match Decimal_fix d with
  | None => None
  | Some f =>
      if (dcoef f =? 0)%N then Some (mkDecimal (dsign f) 0 0)
      else
        let (c, e) := strip_zeros (ndigits (dcoef f)) (dcoef f) (dexp f) in
        Some (mkDecimal (dsign f) c e)
  end.

(** Decimals that the context holds without rounding. *)
Definition in_context (d : Decimal) : Prop :=
  dcoef d = 0%N \/ (Z.of_nat (ndigits (dcoef d)) <= prec /\ Etiny <= dexp d).

(** *** Reading a decimal literal: [Decimal("...")]

    White space around the literal is dropped and so are underscores;
    then: optional sign, digits, optional [.] and digits, optional
    exponent [e]/[E] with optional sign and digits; at least one digit in
    the mantissa.  Anything else (among them the literals of the
    non-finite values, which the validator refuses as well) is an error.
    Literals are read in ASCII: digits and spaces of other scripts, and
    exponents beyond the range of the library (about 10^18), are outside
    the model. *)

Definition is_space (c : ascii) : bool :=
  let n := N_of_ascii c in
  (((9 <=? n) && (n <=? 13)) || ((28 <=? n) && (n <=? 32)))%N.

Fixpoint lstrip (s : string) : string :=
  match s with
  | EmptyString => EmptyString
  | String c rest => if is_space c then lstrip rest else s
  end.

Fixpoint rstrip (s : string) : string :=
  match s with
  | EmptyString => EmptyString
  | String c rest =>
      match rstrip rest with
      | EmptyString => if is_space c then EmptyString else String c EmptyString
      | rest' => String c rest'
      end
  end.

Fixpoint drop_underscores (s : string) : string :=
  match s with
  | EmptyString => EmptyString
  | String c rest =>
      if Ascii.eqb c "_" then drop_underscores rest else String c (drop_underscores rest)
  end.

Definition digit_of (c : ascii) : option N :=
  let n := N_of_ascii c in
  if ((48 <=? n) && (n <=? 57))%N then Some (n - 48)%N else None.

Fixpoint read_digits (s : string) : list N * string :=
  match s with
  | EmptyString => ([], EmptyString)
  | String c rest =>
      match digit_of c with
      | Some d => let (ds, r) := read_digits rest in (d :: ds, r)
      | None => ([], s)
      end
  end.

Definition number_of (ds : list N) : N :=
  fold_left (fun acc d => (acc * 10 + d)%N) ds 0%N.

Definition read_sign (s : string) : bool * string :=
  match s with
  | String "-" rest => (true, rest)
  | String "+" rest => (false, rest)
  | _ => (false, s)
  end.

Definition read_exponent (s : string) : option Z :=
  match s with
  | EmptyString => Some 0
  | String c rest =>
      if (Ascii.eqb c "e" || Ascii.eqb c "E")%bool then
        let (neg, rest') := read_sign rest in
        match read_digits rest' with
        | (d :: ds, EmptyString) =>
            let e := Z.of_N (number_of (d :: ds)) in
            Some (if neg then - e else e)
        | _ => None
        end
      else None
  end.

Definition parse_decimal (s : string) : option Decimal :=
  let (neg, s1) := read_sign (drop_underscores (rstrip (lstrip s))) in
  let (ip, s2) := read_digits s1 in
  let (fp, s3) :=
    match s2 with
    | String "." rest => read_digits rest
    | _ => ([], s2)
    end in
  match (ip ++ fp)%list with
  | [] => None
  | ds =>
      match read_exponent s3 with
      | Some e => Some (mkDecimal neg (number_of ds) (e - Z.of_nat (List.length fp)))
      | None => None
      end
  end.

(* ------------------------------------------------------------------ *)
(** ** Regular expressions

    The subset of [re] syntax the schema uses, matched with Brzozowski
    derivatives.  [Range lo hi] is one [lo-hi] item of a bracket class. *)

Inductive re :=
| Void
| Eps
| Chr (c : ascii)
| Range (lo hi : ascii)
| Alt (r1 r2 : re)
| Cat (r1 r2 : re)
| Star (r : re).

Definition in_range (lo hi c : ascii) : bool :=
  ((N_of_ascii lo <=? N_of_ascii c) && (N_of_ascii c <=? N_of_ascii hi))%N.

Fixpoint nullable (r : re) : bool :=
  match r with
  | Void => false
  | Eps => true
  | Chr _ => false
  | Range _ _ => false
  | Alt r1 r2 => nullable r1 || nullable r2
  | Cat r1 r2 => nullable r1 && nullable r2
  | Star _ => true
  end.

Fixpoint deriv (a : ascii) (r : re) : re :=
  match r with
  | Void => Void
  | Eps => Void
  | Chr c => if Ascii.eqb a c then Eps else Void
  | Range lo hi => if in_range lo hi a then Eps else Void
  | Alt r1 r2 => Alt (deriv a r1) (deriv a r2)
  | Cat r1 r2 =>
      if nullable r1 then Alt (Cat (deriv a r1) r2) (deriv a r2)
      else Cat (deriv a r1) r2
  | Star r1 => Cat (deriv a r1) (Star r1)
  end.

Fixpoint re_match (r : re) (s : string) : bool :=
  match s with
  | EmptyString => nullable r
  | String a rest => re_match (deriv a r) rest
  end.

(** A bracket class [[...]] is the alternative of its items; [r+] is [r r*]. *)
Definition class (items : list re) : re := fold_right Alt Void items.
Definition plus (r : re) : re := Cat r (Star r).

(** [$] at the end of a pattern: the end of the string, or just before a
    newline that ends the string. *)
Definition newline : ascii := ascii_of_nat 10.
Definition dollar : re := Alt Eps (Chr newline).

(** The strings a pattern denotes. *)
Inductive matches : re -> string -> Prop :=
| m_eps : matches Eps ""
| m_chr c : matches (Chr c) (String c "")
| m_range lo hi c : in_range lo hi c = true -> matches (Range lo hi) (String c "")
| m_alt_l r1 r2 s : matches r1 s -> matches (Alt r1 r2) s
| m_alt_r r1 r2 s : matches r2 s -> matches (Alt r1 r2) s
| m_cat r1 r2 s1 s2 : matches r1 s1 -> matches r2 s2 -> matches (Cat r1 r2) (s1 ++ s2)
| m_star_nil r : matches (Star r) ""
| m_star_cons r s1 s2 : matches r s1 -> matches (Star r) s2 -> matches (Star r) (s1 ++ s2).

(* ------------------------------------------------------------------ *)
(** ** Values and field declarations *)

(** Python values that occur in field data.  A member of a [str]-valued
    enumeration is [VEnum class value]; a [datetime] is a point on the
    clock. *)
#[local] Set Warnings "-register-all".
Inductive pyval :=
| VNone
| VBool (b : bool)
| VInt (z : Z)
| VStr (s : string)
| VDecimal (d : Decimal)
| VDatetime (t : Z)
| VEnum (cls value : string)
| VList (l : list pyval)
| VDict (d : list (string * pyval)).

(** Field annotations. *)
Inductive ftype :=
| TInt
| TStr
| TBool
| TDecimal
| TDatetime
| TEnum (cls : string) (values : list string)
| TListStr
| TDictStrAny
| TOptional (t : ftype).

Inductive factory := datetime_utcnow.

(** Keyword arguments of [Field(...)]. *)
Module Kw.
Inductive t :=
  | default (v : pyval)
  | default_factory (f : factory)
  | primary_key (b : bool)
  | unique (b : bool)
  | foreign_key (target : string)
  | max_length (n : nat)
  | min_length (n : nat)
  | regex (r : re)
  | ge (z : Z)
  | le (z : Z)
  | max_digits (n : nat)
  | decimal_places (n : nat)
  | sa_column_JSON.
End Kw.

Record ModelField := fld { fname : string; annotation : ftype; info : list Kw.t }.

Record Model := mkModel {
  cls_name : string;
  table : bool;
  tablename : option string;
  fields : list ModelField
}.

(** Reading one keyword out of a declaration. *)
Fixpoint find_kw {A} (sel : Kw.t -> option A) (kws : list Kw.t) : option A :=
  match kws with
  | [] => None
  | k :: rest => match sel k with Some a => Some a | None => find_kw sel rest end
  end.

Definition kw_default := find_kw (fun k => match k with Kw.default v => Some v | _ => None end).
Definition kw_default_factory :=
  find_kw (fun k => match k with Kw.default_factory f => Some f | _ => None end).
Definition kw_max_length := find_kw (fun k => match k with Kw.max_length n => Some n | _ => None end).
Definition kw_min_length := find_kw (fun k => match k with Kw.min_length n => Some n | _ => None end).
Definition kw_regex := find_kw (fun k => match k with Kw.regex r => Some r | _ => None end).
Definition kw_ge := find_kw (fun k => match k with Kw.ge z => Some z | _ => None end).
Definition kw_le := find_kw (fun k => match k with Kw.le z => Some z | _ => None end).
Definition kw_max_digits := find_kw (fun k => match k with Kw.max_digits n => Some n | _ => None end).
Definition kw_decimal_places :=
  find_kw (fun k => match k with Kw.decimal_places n => Some n | _ => None end).
Definition kw_primary_key (kws : list Kw.t) : bool :=
  match find_kw (fun k => match k with Kw.primary_key b => Some b | _ => None end) kws with
  | Some b => b | None => false
  end.
Definition kw_unique (kws : list Kw.t) : bool :=
  match find_kw (fun k => match k with Kw.unique b => Some b | _ => None end) kws with
  | Some b => b | None => false
  end.

Definition get_field (m : Model) (name : string) : option ModelField :=
  find (fun f => String.eqb (fname f) name) (fields m).

(** Literals of the source. *)
Definition Decimal_lit (s : string) : Decimal :=
  match parse_decimal s with Some d => d | None => mkDecimal false 0 0 end.

Definition UserRole_t : ftype := TEnum "UserRole" (map UserRole.value UserRole.members).
Definition OrderStatus_t : ftype := TEnum "OrderStatus" (map OrderStatus.value OrderStatus.members).
Definition DeliveryStatus_t : ftype :=
  TEnum "DeliveryStatus" (map DeliveryStatus.value DeliveryStatus.members).

Definition role (r : UserRole.t) : pyval := VEnum "UserRole" (UserRole.value r).
Definition order_status (s : OrderStatus.t) : pyval := VEnum "OrderStatus" (OrderStatus.value s).
Definition delivery_status (s : DeliveryStatus.t) : pyval :=
  VEnum "DeliveryStatus" (DeliveryStatus.value s).

(** The e-mail pattern of [User.email] and [UserCreate.email]:
    [^[a-zA-Z0-9_.+-]+@[a-zA-Z0-9-]+\.[a-zA-Z0-9-.]+$]. *)
Definition email_local : re :=
  class [Range "a" "z"; Range "A" "Z"; Range "0" "9"; Chr "_"; Chr "."; Chr "+"; Chr "-"].
Definition email_domain : re :=
  class [Range "a" "z"; Range "A" "Z"; Range "0" "9"; Chr "-"].
Definition email_tld : re :=
  class [Range "a" "z"; Range "A" "Z"; Range "0" "9"; Chr "-"; Chr "."].
Definition email_re : re :=
  Cat (plus email_local)
    (Cat (Chr "@") (Cat (plus email_domain) (Cat (Chr ".") (Cat (plus email_tld) dollar)))).

(* ------------------------------------------------------------------ *)
(** ** The classes of app/models.py

    Each class is transcribed field by field, in declaration order.  The
    [Relationship(...)] attributes are navigation links between entities,
    not columns or validated fields, and are left out. *)

(** *** Persistent models (stored in database) *)

Definition User : Model := mkModel "User" true (Some "users") [
  fld "id" (TOptional TInt) [Kw.default VNone; Kw.primary_key true];
  fld "email" TStr [Kw.unique true; Kw.max_length 255; Kw.regex email_re];
  fld "password_hash" TStr [Kw.max_length 255];
  fld "full_name" TStr [Kw.max_length 100];
  fld "phone" (TOptional TStr) [Kw.default VNone; Kw.max_length 20];
  fld "role" UserRole_t [Kw.default (role UserRole.BUYER)];
  fld "is_active" TBool [Kw.default (VBool true)];
  fld "created_at" TDatetime [Kw.default_factory datetime_utcnow];
  fld "updated_at" TDatetime [Kw.default_factory datetime_utcnow]
].

Definition Address : Model := mkModel "Address" true (Some "addresses") [
  fld "id" (TOptional TInt) [Kw.default VNone; Kw.primary_key true];
  fld "user_id" TInt [Kw.foreign_key "users.id"];
  fld "label" TStr [Kw.max_length 50];
  fld "full_address" TStr [Kw.max_length 500];
  fld "city" TStr [Kw.max_length 100];
  fld "state" TStr [Kw.max_length 100];
  fld "postal_code" TStr [Kw.max_length 20];
  fld "country" TStr [Kw.max_length 100; Kw.default (VStr "Indonesia")];
  fld "is_default" TBool [Kw.default (VBool false)];
  fld "created_at" TDatetime [Kw.default_factory datetime_utcnow]
].

Definition SellerProfile : Model := mkModel "SellerProfile" true (Some "seller_profiles") [
  fld "id" (TOptional TInt) [Kw.default VNone; Kw.primary_key true];
  fld "user_id" TInt [Kw.foreign_key "users.id"; Kw.unique true];
  fld "store_name" TStr [Kw.max_length 200];
  fld "store_description" (TOptional TStr) [Kw.default VNone; Kw.max_length 1000];
  fld "store_logo_url" (TOptional TStr) [Kw.default VNone; Kw.max_length 500];
  fld "business_license" (TOptional TStr) [Kw.default VNone; Kw.max_length 100];
  fld "is_verified" TBool [Kw.default (VBool false)];
  fld "rating" TDecimal
    [Kw.default (VDecimal (Decimal_lit "0.0")); Kw.max_digits 3; Kw.decimal_places 2];
  fld "total_sales" TInt [Kw.default (VInt 0)];
  fld "created_at" TDatetime [Kw.default_factory datetime_utcnow]
].

Definition Category : Model := mkModel "Category" true (Some "categories") [
  fld "id" (TOptional TInt) [Kw.default VNone; Kw.primary_key true];
  fld "name" TStr [Kw.max_length 100; Kw.unique true];
  fld "description" (TOptional TStr) [Kw.default VNone; Kw.max_length 500];
  fld "parent_id" (TOptional TInt) [Kw.default VNone; Kw.foreign_key "categories.id"];
  fld "image_url" (TOptional TStr) [Kw.default VNone; Kw.max_length 500];
  fld "is_active" TBool [Kw.default (VBool true)];
  fld "sort_order" TInt [Kw.default (VInt 0)];
  fld "created_at" TDatetime [Kw.default_factory datetime_utcnow]
].

Definition Product : Model := mkModel "Product" true (Some "products") [
  fld "id" (TOptional TInt) [Kw.default VNone; Kw.primary_key true];
  fld "seller_id" TInt [Kw.foreign_key "users.id"];
  fld "category_id" TInt [Kw.foreign_key "categories.id"];
  fld "name" TStr [Kw.max_length 200];
  fld "description" TStr [Kw.max_length 2000];
  fld "price" TDecimal [Kw.max_digits 12; Kw.decimal_places 2];
  fld "original_price" (TOptional TDecimal)
    [Kw.default VNone; Kw.max_digits 12; Kw.decimal_places 2];
  fld "stock_quantity" TInt [Kw.default (VInt 0)];
  fld "min_order_quantity" TInt [Kw.default (VInt 1)];
  fld "weight_kg" TDecimal [Kw.max_digits 8; Kw.decimal_places 3];
  fld "dimensions" TDictStrAny [Kw.default (VDict []); Kw.sa_column_JSON];
  fld "images" TListStr [Kw.default (VList []); Kw.sa_column_JSON];
  fld "specifications" TDictStrAny [Kw.default (VDict []); Kw.sa_column_JSON];
  fld "tags" TListStr [Kw.default (VList []); Kw.sa_column_JSON];
  fld "is_active" TBool [Kw.default (VBool true)];
  fld "is_featured" TBool [Kw.default (VBool false)];
  fld "rating" TDecimal
    [Kw.default (VDecimal (Decimal_lit "0.0")); Kw.max_digits 3; Kw.decimal_places 2];
  fld "total_reviews" TInt [Kw.default (VInt 0)];
  fld "total_sold" TInt [Kw.default (VInt 0)];
  fld "created_at" TDatetime [Kw.default_factory datetime_utcnow];
  fld "updated_at" TDatetime [Kw.default_factory datetime_utcnow]
].

Definition CartItem : Model := mkModel "CartItem" true (Some "cart_items") [
  fld "id" (TOptional TInt) [Kw.default VNone; Kw.primary_key true];
  fld "user_id" TInt [Kw.foreign_key "users.id"];
  fld "product_id" TInt [Kw.foreign_key "products.id"];
  fld "quantity" TInt [Kw.default (VInt 1)];
  fld "added_at" TDatetime [Kw.default_factory datetime_utcnow]
].

Definition Order : Model := mkModel "Order" true (Some "orders") [
  fld "id" (TOptional TInt) [Kw.default VNone; Kw.primary_key true];
  fld "user_id" TInt [Kw.foreign_key "users.id"];
  fld "shipping_address_id" TInt [Kw.foreign_key "addresses.id"];
  fld "order_number" TStr [Kw.unique true; Kw.max_length 50];
  fld "status" OrderStatus_t [Kw.default (order_status OrderStatus.PENDING)];
  fld "subtotal" TDecimal [Kw.max_digits 12; Kw.decimal_places 2];
  fld "shipping_fee" TDecimal
    [Kw.default (VDecimal (Decimal_lit "0.00")); Kw.max_digits 12; Kw.decimal_places 2];
  fld "tax_amount" TDecimal
    [Kw.default (VDecimal (Decimal_lit "0.00")); Kw.max_digits 12; Kw.decimal_places 2];
  fld "discount_amount" TDecimal
    [Kw.default (VDecimal (Decimal_lit "0.00")); Kw.max_digits 12; Kw.decimal_places 2];
  fld "total_amount" TDecimal [Kw.max_digits 12; Kw.decimal_places 2];
  fld "payment_method" TStr [Kw.max_length 50];
  fld "payment_status" TStr [Kw.default (VStr "pending"); Kw.max_length 20];
  fld "notes" (TOptional TStr) [Kw.default VNone; Kw.max_length 500];
  fld "created_at" TDatetime [Kw.default_factory datetime_utcnow];
  fld "updated_at" TDatetime [Kw.default_factory datetime_utcnow]
].

Definition OrderItem : Model := mkModel "OrderItem" true (Some "order_items") [
  fld "id" (TOptional TInt) [Kw.default VNone; Kw.primary_key true];
  fld "order_id" TInt [Kw.foreign_key "orders.id"];
  fld "product_id" TInt [Kw.foreign_key "products.id"];
  fld "quantity" TInt [];
  fld "unit_price" TDecimal [Kw.max_digits 12; Kw.decimal_places 2];
  fld "total_price" TDecimal [Kw.max_digits 12; Kw.decimal_places 2];
  fld "seller_id" TInt [Kw.foreign_key "users.id"]
].

Definition Delivery : Model := mkModel "Delivery" true (Some "deliveries") [
  fld "id" (TOptional TInt) [Kw.default VNone; Kw.primary_key true];
  fld "order_id" TInt [Kw.foreign_key "orders.id"; Kw.unique true];
  fld "komerce_delivery_id" (TOptional TStr) [Kw.default VNone; Kw.max_length 100];
  fld "courier_name" TStr [Kw.max_length 100];
  fld "courier_phone" (TOptional TStr) [Kw.default VNone; Kw.max_length 20];
  fld "tracking_number" (TOptional TStr) [Kw.default VNone; Kw.max_length 100];
  fld "status" DeliveryStatus_t [Kw.default (delivery_status DeliveryStatus.PENDING)];
  fld "estimated_delivery" (TOptional TDatetime) [Kw.default VNone];
  fld "actual_delivery" (TOptional TDatetime) [Kw.default VNone];
  fld "pickup_address" TStr [Kw.max_length 500];
  fld "delivery_address" TStr [Kw.max_length 500];
  fld "delivery_fee" TDecimal [Kw.max_digits 10; Kw.decimal_places 2];
  fld "insurance_fee" TDecimal
    [Kw.default (VDecimal (Decimal_lit "0.00")); Kw.max_digits 10; Kw.decimal_places 2];
  fld "delivery_notes" (TOptional TStr) [Kw.default VNone; Kw.max_length 500];
  fld "komerce_response" TDictStrAny [Kw.default (VDict []); Kw.sa_column_JSON];
  fld "created_at" TDatetime [Kw.default_factory datetime_utcnow];
  fld "updated_at" TDatetime [Kw.default_factory datetime_utcnow]
].

Definition ProductReview : Model := mkModel "ProductReview" true (Some "product_reviews") [
  fld "id" (TOptional TInt) [Kw.default VNone; Kw.primary_key true];
  fld "product_id" TInt [Kw.foreign_key "products.id"];
  fld "user_id" TInt [Kw.foreign_key "users.id"];
  fld "order_item_id" (TOptional TInt) [Kw.default VNone; Kw.foreign_key "order_items.id"];
  fld "rating" TInt [Kw.ge 1; Kw.le 5];
  fld "title" (TOptional TStr) [Kw.default VNone; Kw.max_length 200];
  fld "comment" (TOptional TStr) [Kw.default VNone; Kw.max_length 1000];
  fld "images" TListStr [Kw.default (VList []); Kw.sa_column_JSON];
  fld "is_verified_purchase" TBool [Kw.default (VBool false)];
  fld "helpful_count" TInt [Kw.default (VInt 0)];
  fld "created_at" TDatetime [Kw.default_factory datetime_utcnow]
].

Definition persistent_models : list Model :=
  [User; Address; SellerProfile; Category; Product; CartItem; Order; OrderItem;
   Delivery; ProductReview].

(** *** Non-persistent schemas (for validation, forms, API requests/responses) *)

Definition UserCreate : Model := mkModel "UserCreate" false None [
  fld "email" TStr [Kw.max_length 255; Kw.regex email_re];
  fld "password" TStr [Kw.min_length 8; Kw.max_length 100];
  fld "full_name" TStr [Kw.max_length 100];
  fld "phone" (TOptional TStr) [Kw.default VNone; Kw.max_length 20];
  fld "role" UserRole_t [Kw.default (role UserRole.BUYER)]
].

Definition UserUpdate : Model := mkModel "UserUpdate" false None [
  fld "full_name" (TOptional TStr) [Kw.default VNone; Kw.max_length 100];
  fld "phone" (TOptional TStr) [Kw.default VNone; Kw.max_length 20]
].

Definition AddressCreate : Model := mkModel "AddressCreate" false None [
  fld "label" TStr [Kw.max_length 50];
  fld "full_address" TStr [Kw.max_length 500];
  fld "city" TStr [Kw.max_length 100];
  fld "state" TStr [Kw.max_length 100];
  fld "postal_code" TStr [Kw.max_length 20];
  fld "country" TStr [Kw.max_length 100; Kw.default (VStr "Indonesia")];
  fld "is_default" TBool [Kw.default (VBool false)]
].

Definition SellerProfileCreate : Model := mkModel "SellerProfileCreate" false None [
  fld "store_name" TStr [Kw.max_length 200];
  fld "store_description" (TOptional TStr) [Kw.default VNone; Kw.max_length 1000];
  fld "store_logo_url" (TOptional TStr) [Kw.default VNone; Kw.max_length 500];
  fld "business_license" (TOptional TStr) [Kw.default VNone; Kw.max_length 100]
].

Definition ProductCreate : Model := mkModel "ProductCreate" false None [
  fld "category_id" TInt [];
  fld "name" TStr [Kw.max_length 200];
  fld "description" TStr [Kw.max_length 2000];
  fld "price" TDecimal [Kw.max_digits 12; Kw.decimal_places 2];
  fld "original_price" (TOptional TDecimal)
    [Kw.default VNone; Kw.max_digits 12; Kw.decimal_places 2];
  fld "stock_quantity" TInt [Kw.default (VInt 0)];
  fld "min_order_quantity" TInt [Kw.default (VInt 1)];
  fld "weight_kg" TDecimal [Kw.max_digits 8; Kw.decimal_places 3];
  fld "dimensions" TDictStrAny [Kw.default (VDict [])];
  fld "images" TListStr [Kw.default (VList [])];
  fld "specifications" TDictStrAny [Kw.default (VDict [])];
  fld "tags" TListStr [Kw.default (VList [])]
].

Definition ProductUpdate : Model := mkModel "ProductUpdate" false None [
  fld "name" (TOptional TStr) [Kw.default VNone; Kw.max_length 200];
  fld "description" (TOptional TStr) [Kw.default VNone; Kw.max_length 2000];
  fld "price" (TOptional TDecimal) [Kw.default VNone; Kw.max_digits 12; Kw.decimal_places 2];
  fld "original_price" (TOptional TDecimal)
    [Kw.default VNone; Kw.max_digits 12; Kw.decimal_places 2];
  fld "stock_quantity" (TOptional TInt) [Kw.default VNone];
  fld "weight_kg" (TOptional TDecimal) [Kw.default VNone; Kw.max_digits 8; Kw.decimal_places 3];
  fld "dimensions" (TOptional TDictStrAny) [Kw.default VNone];
  fld "images" (TOptional TListStr) [Kw.default VNone];
  fld "specifications" (TOptional TDictStrAny) [Kw.default VNone];
  fld "tags" (TOptional TListStr) [Kw.default VNone];
  fld "is_active" (TOptional TBool) [Kw.default VNone]
].

Definition CartItemCreate : Model := mkModel "CartItemCreate" false None [
  fld "product_id" TInt [];
  fld "quantity" TInt [Kw.default (VInt 1); Kw.ge 1]
].

Definition CartItemUpdate : Model := mkModel "CartItemUpdate" false None [
  fld "quantity" TInt [Kw.ge 1]
].

Definition OrderCreate : Model := mkModel "OrderCreate" false None [
  fld "shipping_address_id" TInt [];
  fld "payment_method" TStr [Kw.max_length 50];
  fld "notes" (TOptional TStr) [Kw.default VNone; Kw.max_length 500]
].

Definition DeliveryCreate : Model := mkModel "DeliveryCreate" false None [
  fld "courier_name" TStr [Kw.max_length 100];
  fld "pickup_address" TStr [Kw.max_length 500];
  fld "delivery_address" TStr [Kw.max_length 500];
  fld "delivery_fee" TDecimal [Kw.max_digits 10; Kw.decimal_places 2];
  fld "insurance_fee" TDecimal
    [Kw.default (VDecimal (Decimal_lit "0.00")); Kw.max_digits 10; Kw.decimal_places 2];
  fld "delivery_notes" (TOptional TStr) [Kw.default VNone; Kw.max_length 500]
].

Definition ProductReviewCreate : Model := mkModel "ProductReviewCreate" false None [
  fld "rating" TInt [Kw.ge 1; Kw.le 5];
  fld "title" (TOptional TStr) [Kw.default VNone; Kw.max_length 200];
  fld "comment" (TOptional TStr) [Kw.default VNone; Kw.max_length 1000];
  fld "images" TListStr [Kw.default (VList [])]
].

Definition transient_models : list Model :=
  [UserCreate; UserUpdate; AddressCreate; SellerProfileCreate; ProductCreate;
   ProductUpdate; CartItemCreate; CartItemUpdate; OrderCreate; DeliveryCreate;
   ProductReviewCreate].

(** Each Create shape with the persistent entity it is a request for. *)
Definition create_pairs : list (Model * Model) :=
  [(UserCreate, User); (AddressCreate, Address); (SellerProfileCreate, SellerProfile);
   (ProductCreate, Product); (CartItemCreate, CartItem); (OrderCreate, Order);
   (DeliveryCreate, Delivery); (ProductReviewCreate, ProductReview)].

(* ------------------------------------------------------------------ *)
(** ** Validation

    What the validation layer does with a class: every declared field is
    looked up in the input data; a given value is checked against the
    annotation and the keywords of the field, an absent one is replaced by
    the declared default (which is taken as it is) or reported missing.
    Errors name the field and the violated constraint; keys of the input
    that are not fields are ignored.

    Inputs are typed values: an [int] field takes a [VInt], a [str] field a
    [VStr], and so on; the conversions the validation layer offers between
    types (a numeric string for an [int], 0 and 1 for a [bool]) are outside
    the model.  The one conversion kept is the one the schema relies on
    for exactness, a [Decimal] field reading a decimal literal or an
    integer.  A string is held as its UTF-8 bytes. *)

Inductive result (E A : Type) :=
| Ok (a : A)
| Err (e : E).
Arguments Ok {E A} a.
Arguments Err {E A} e.

Definition bind {E A B} (r : result E A) (k : A -> result E B) : result E B :=
  match r with Ok a => k a | Err e => Err e end.

Notation "r ;; k" := (bind r (fun _ => k)) (at level 61, right associativity).

Definition is_ok {E A} (r : result E A) : bool :=
  match r with Ok _ => true | Err _ => false end.

Inductive ErrorKind :=
| missing
| none_not_allowed
| type_error
| enum_error
| any_str_min_length (limit : nat)
| any_str_max_length (limit : nat)
| number_not_ge (limit : Z)
| number_not_le (limit : Z)
| decimal_not_valid
| decimal_max_digits (limit : nat)
| decimal_max_places (limit : nat)
| decimal_whole_digits (limit : Z).

Record ValidationError := mkError { loc : string; kind : ErrorKind }.

Definition row := list (string * pyval).

Fixpoint lookup (k : string) (r : row) : option pyval :=
  match r with
  | [] => None
  | (k', v) :: rest => if String.eqb k k' then Some v else lookup k rest
  end.

(** A constraint that is checked only when its keyword is given. *)
Definition check_opt {A} (limit : option A) (ok : A -> bool) (e : A -> ErrorKind)
  : result ErrorKind unit :=
  match limit with
  | None => Ok tt
  | Some l => if ok l then Ok tt else Err (e l)
  end.

Definition validate_int (kws : list Kw.t) (z : Z) : result ErrorKind pyval :=
  check_opt (kw_ge kws) (fun l => l <=? z) number_not_ge ;;
  check_opt (kw_le kws) (fun l => z <=? l) number_not_le ;;
  Ok (VInt z).

(** The length of a string is its number of characters: the bytes that do
    not continue a UTF-8 sequence. *)
Definition is_continuation (c : ascii) : bool :=
  let n := N_of_ascii c in ((128 <=? n) && (n <? 192))%N.

Fixpoint utf8_length (s : string) : nat :=
  match s with
  | EmptyString => O
  | String c rest => ((if is_continuation c then 0 else 1) + utf8_length rest)%nat
  end.

(** Strings are checked for length.  The [regex] of a declaration is not
    looked at: the keyword is not one the validation layer reads. *)
Definition validate_str (kws : list Kw.t) (s : string) : result ErrorKind pyval :=
  let n := utf8_length s in
  check_opt (kw_min_length kws) (fun l => (l <=? n)%nat) any_str_min_length ;;
  check_opt (kw_max_length kws) (fun l => (n <=? l)%nat) any_str_max_length ;;
  Ok (VStr s).

(** Digits and decimal places of a digit tuple and exponent: the sign is
    not a digit, a non-negative exponent adds trailing zeros to the
    digits, a negative one gives the decimal places and, when it exceeds
    the digit tuple, the number of digits too. *)
Definition decimal_digits (d : Decimal) : Z * Z :=
  let len := Z.of_nat (ndigits (dcoef d)) in
  let e := dexp d in
  if 0 <=? e then (len + e, 0)
  else if len <? Z.abs e then (Z.abs e, Z.abs e)
  else (len, Z.abs e).

(** The decimal as [normalize()] returns it, or the decimal itself when
    [normalize()] raises. *)
Definition normalized (d : Decimal) : Decimal :=
  match normalize d with Some n => n | None => d end.

(** A decimal is counted twice, as it is written and normalized, and a
    limit is broken only when both counts exceed it; the decimal is kept
    as it is written. *)
Definition validate_decimal (kws : list Kw.t) (d : Decimal) : result ErrorKind pyval :=
  let (digits, decimals) := decimal_digits d in
  let (ndigs, ndecs) := decimal_digits (normalized d) in
  check_opt (kw_max_digits kws)
            (fun m => (digits <=? Z.of_nat m) || (ndigs <=? Z.of_nat m)) decimal_max_digits ;;
  check_opt (kw_decimal_places kws)
            (fun p => (decimals <=? Z.of_nat p) || (ndecs <=? Z.of_nat p)) decimal_max_places ;;
  match kw_max_digits kws, kw_decimal_places kws with
  | Some m, Some p =>
      let expected := Z.of_nat (m - p) in
      if (digits - decimals <=? expected) || (ndigs - ndecs <=? expected)
      then Ok tt else Err (decimal_whole_digits expected)
  | _, _ => Ok tt
  end ;;
  Ok (VDecimal d).

Definition Decimal_of_int (z : Z) : Decimal := mkDecimal (z <? 0) (Z.abs_N z) 0.

Definition is_str (v : pyval) : bool :=
  match v with VStr _ => true | _ => false end.

Definition mem (s : string) (l : list string) : bool := existsb (String.eqb s) l.

Fixpoint validate_type (t : ftype) (kws : list Kw.t) (v : pyval) : result ErrorKind pyval :=
  match t with
  | TOptional t' =>
      match v with
      | VNone => Ok VNone
      | _ => validate_type t' kws v
      end
  | TInt =>
      match v with
      | VInt z => validate_int kws z
      | VNone => Err none_not_allowed
      | _ => Err type_error
      end
  | TStr =>
      match v with
      | VStr s => validate_str kws s
      | VNone => Err none_not_allowed
      | _ => Err type_error
      end
  | TBool =>
      match v with
      | VBool b => Ok (VBool b)
      | VNone => Err none_not_allowed
      | _ => Err type_error
      end
  | TDecimal =>
      match v with
      | VDecimal d => validate_decimal kws d
      | VInt z => validate_decimal kws (Decimal_of_int z)
      | VStr s =>
          match parse_decimal s with
          | Some d => validate_decimal kws d
          | None => Err decimal_not_valid
          end
      | VNone => Err none_not_allowed
      | _ => Err type_error
      end
  | TDatetime =>
      match v with
      | VDatetime t => Ok (VDatetime t)
      | VNone => Err none_not_allowed
      | _ => Err type_error
      end
  | TEnum cls values =>
      match v with
      | VEnum cls' x =>
          if String.eqb cls cls' && mem x values then Ok (VEnum cls x) else Err enum_error
      | VStr x => if mem x values then Ok (VEnum cls x) else Err enum_error
      | VNone => Err none_not_allowed
      | _ => Err enum_error
      end
  | TListStr =>
      match v with
      | VList l => if forallb is_str l then Ok (VList l) else Err type_error
      | VNone => Err none_not_allowed
      | _ => Err type_error
      end
  | TDictStrAny =>
      match v with
      | VDict d => Ok (VDict d)
      | VNone => Err none_not_allowed
      | _ => Err type_error
      end
  end.

(** [now] is the reading of the clock when a record is validated; the
    fields of one record are filled from that one reading (in the code
    each field reads the clock itself, a few microseconds apart). *)
Definition run_factory (now : Z) (f : factory) : pyval :=
  match f with datetime_utcnow => VDatetime now end.

(** One field of a class against the input data; [now] is the reading of
    the clock that [datetime.utcnow] returns. *)
Definition validate_field (now : Z) (f : ModelField) (input : row)
  : result ValidationError pyval :=
  match lookup (fname f) input with
  | Some v =>
      match validate_type (annotation f) (info f) v with
      | Ok v' => Ok v'
      | Err k => Err (mkError (fname f) k)
      end
  | None =>
      match kw_default (info f) with
      | Some d => Ok d
      | None =>
          match kw_default_factory (info f) with
          | Some g => Ok (run_factory now g)
          | None => Err (mkError (fname f) missing)
          end
      end
  end.

Fixpoint validate_fields (now : Z) (fs : list ModelField) (input : row)
  : list ValidationError * row :=
  match fs with
  | [] => ([], [])
  | f :: rest =>
      let (errs, vals) := validate_fields now rest input in
      match validate_field now f input with
      | Ok v => (errs, (fname f, v) :: vals)
      | Err e => (e :: errs, vals)
      end
  end.

Definition validate_model (now : Z) (m : Model) (input : row)
  : result (list ValidationError) row :=
  match validate_fields now (fields m) input with
  | ([], vals) => Ok vals
  | (errs, _) => Err errs
  end.

(** Modelled from the spec: the step that applies a Create shape to build
    its persistent entity is not in app/models.py.  The specification has
    the shapes "used to validate inbound data before constructing or
    mutating a persistent entity".  The entity is built the way the
    framework offers, [Entity.model_validate(obj, update=...)]: the entity
    class validates the data of the shape, the entries of [update] (the
    fields the shape does not have) taking precedence. *)
Definition model_validate (now : Z) (m : Model) (obj update : row)
  : result (list ValidationError) row :=
  validate_model now m (update ++ obj)%list.

(* ------------------------------------------------------------------ *)
(** ** Reading the declarations *)

Definition names (m : Model) : list string := map fname (fields m).

Definition to_option {E A} (r : result E A) : option A :=
  match r with Ok a => Some a | Err _ => None end.

Definition all_models : list Model := (persistent_models ++ transient_models)%list.

(** The numeric identity of an entity: [id: Optional[int]], primary key. *)
Definition has_identity (m : Model) : bool :=
  match get_field m "id" with
  | Some f =>
      match annotation f with
      | TOptional TInt => kw_primary_key (info f)
      | _ => false
      end
  | None => false
  end.

Definition primary_keys (m : Model) : list string :=
  map fname (filter (fun f => kw_primary_key (info f)) (fields m)).

(** A timestamp taken when the record is made: a [datetime] field filled
    by [datetime.utcnow]. *)
Definition is_creation_timestamp (f : ModelField) : bool :=
  match annotation f, kw_default_factory (info f) with
  | TDatetime, Some datetime_utcnow => true
  | _, _ => false
  end.

Definition has_timestamp (name : string) (m : Model) : bool :=
  match get_field m name with
  | Some f => is_creation_timestamp f
  | None => false
  end.

Fixpoint is_datetime (t : ftype) : bool :=
  match t with
  | TDatetime => true
  | TOptional t' => is_datetime t'
  | _ => false
  end.

Definition datetime_fields (m : Model) : list string :=
  map fname (filter (fun f => is_datetime (annotation f)) (fields m)).

Fixpoint is_decimal (t : ftype) : bool :=
  match t with
  | TDecimal => true
  | TOptional t' => is_decimal t'
  | _ => false
  end.

(** Every [Decimal] field of the class declares precision and scale. *)
Definition precision_declared (m : Model) : bool :=
  forallb (fun f =>
             negb (is_decimal (annotation f)) ||
             match kw_max_digits (info f), kw_decimal_places (info f) with
             | Some _, Some _ => true
             | _, _ => false
             end) (fields m).

(** The entity's declaration of a field asks no more than the Create
    shape's: same annotation, each constraint either absent or the same,
    and the Create shape's default, which is taken unchecked, is a value
    the entity's field accepts as it is. *)
Definition no_stronger {A} (entity create : option A) : Prop :=
  entity = None \/ entity = create.

Definition field_compatible (fe fc : ModelField) : Prop :=
  annotation fe = annotation fc /\
  no_stronger (kw_ge (info fe)) (kw_ge (info fc)) /\
  no_stronger (kw_le (info fe)) (kw_le (info fc)) /\
  no_stronger (kw_min_length (info fe)) (kw_min_length (info fc)) /\
  no_stronger (kw_max_length (info fe)) (kw_max_length (info fc)) /\
  no_stronger (kw_regex (info fe)) (kw_regex (info fc)) /\
  kw_max_digits (info fe) = kw_max_digits (info fc) /\
  kw_decimal_places (info fe) = kw_decimal_places (info fc) /\
  kw_default_factory (info fc) = None /\
  (forall d, kw_default (info fc) = Some d ->
             validate_type (annotation fe) (info fe) d = Ok d).

Definition compatible (C E : Model) : Prop :=
  forall fc, In fc (fields C) ->
  forall fe, In fe (fields E) -> fname fe = fname fc -> field_compatible fe fc.

(* ------------------------------------------------------------------ *)
(** ** The table of a persistent class *)

(** Modelled from the spec: the persistence layer is not part of
    app/models.py.  Section 6 of the specification describes it as the
    collaborator that maps each persistent entity to a relational table and
    enforces the primary keys and unique constraints the class declares.
    Keys are compared as integers or strings; a null is equal to nothing. *)
Definition key_eqb (a b : pyval) : bool :=
  match a, b with
  | VInt x, VInt y => x =? y
  | VStr x, VStr y => String.eqb x y
  | _, _ => false
  end.

(** The columns of a class declared [unique=True] or [primary_key=True]. *)
Definition unique_columns (m : Model) : list string :=
  map fname (filter (fun f => kw_unique (info f) || kw_primary_key (info f)) (fields m)).

(** Modelled from the spec: a table is the bag of its rows, and a value
    conflicts in a column when some row already holds it there. *)
Definition conflicts (col : string) (v : pyval) (t : list row) : bool :=
  existsb (fun r => match lookup col r with
                    | Some v' => key_eqb v v'
                    | None => false
                    end) t.

(** Modelled from the spec: a row may be written when none of its values
    in a unique column is already in the table. *)
Definition admissible (m : Model) (t : list row) (r : row) : bool :=
  forallb (fun col => match lookup col r with
                      | Some v => negb (conflicts col v t)
                      | None => true
                      end) (unique_columns m).

Fixpoint remove_at (i : nat) (t : list row) : list row :=
  match t, i with
  | [], _ => []
  | _ :: t', O => t'
  | r :: t', S i' => r :: remove_at i' t'
  end.

(** Modelled from the spec: the writes of the persistence layer.  An
    insert that would break a unique constraint is refused; an update
    replaces a row, under the same check against the other rows. *)
Definition insert (m : Model) (t : list row) (r : row) : option (list row) :=
  if admissible m t r then Some (r :: t) else None.

Definition delete (t : list row) (i : nat) : list row := remove_at i t.

Definition update (m : Model) (t : list row) (i : nat) (r : row) : option (list row) :=
  insert m (remove_at i t) r.

(** Modelled from the spec: the states of a table are those reached from
    the empty table by inserts, deletes and updates. *)
Inductive step (m : Model) : list row -> list row -> Prop :=
| step_insert t r t' : insert m t r = Some t' -> step m t t'
| step_delete t i : step m t (delete t i)
| step_update t i r t' : update m t i r = Some t' -> step m t t'.

Inductive reachable (m : Model) : list row -> Prop :=
| reach_empty : reachable m []
| reach_step t t' : reachable m t -> step m t t' -> reachable m t'.

(** No two rows agree on a non-null key in column [col]. *)
Fixpoint uniq (col : string) (t : list row) : Prop :=
  match t with
  | [] => True
  | r :: t' =>
      match lookup col r with
      | Some v => conflicts col v t' = false
      | None => True
      end /\ uniq col t'
  end.

(* ------------------------------------------------------------------ *)
(** ** Further readings of the declarations *)

Definition kw_foreign_key :=
  find_kw (fun k => match k with Kw.foreign_key target => Some target | _ => None end).

Definition kw_sa_column_JSON (kws : list Kw.t) : bool :=
  existsb (fun k => match k with Kw.sa_column_JSON => true | _ => false end) kws.

(** The annotation under its [Optional[...]]. *)
Fixpoint base_type (t : ftype) : ftype :=
  match t with
  | TOptional t' => base_type t'
  | _ => t
  end.

Definition is_string (t : ftype) : bool :=
  match base_type t with TStr => true | _ => false end.

Definition is_json (t : ftype) : bool :=
  match base_type t with TListStr | TDictStrAny => true | _ => false end.

(** Looking a member up by its value, as [UserRole("buyer")] does. *)
Definition UserRole_of_value (s : string) : option UserRole.t :=
  find (fun r => String.eqb (UserRole.value r) s) UserRole.members.

Definition OrderStatus_of_value (s : string) : option OrderStatus.t :=
  find (fun r => String.eqb (OrderStatus.value r) s) OrderStatus.members.

Definition DeliveryStatus_of_value (s : string) : option DeliveryStatus.t :=
  find (fun r => String.eqb (DeliveryStatus.value r) s) DeliveryStatus.members.

(** A foreign key names its target as ["table.column"]; it resolves to the
    persistent class with that [__tablename__] and to that column of it. *)
Fixpoint split_dot (s : string) : option (string * string) :=
  match s with
  | EmptyString => None
  | String c rest =>
      if Ascii.eqb c "." then Some (EmptyString, rest)
      else match split_dot rest with
           | Some (a, b) => Some (String c a, b)
           | None => None
           end
  end.

Definition table_of (name : string) : option Model :=
  find (fun m => match tablename m with
                 | Some n => String.eqb n name
                 | None => false
                 end) persistent_models.

Definition resolve_foreign_key (target : string) : option (Model * ModelField) :=
  match split_dot target with
  | Some (tbl, col) =>
      match table_of tbl with
      | Some m =>
          match get_field m col with
          | Some f => Some (m, f)
          | None => None
          end
      | None => None
      end
  | None => None
  end.

(** Each Update shape with the persistent entity it changes. *)
Definition update_pairs : list (Model * Model) :=
  [(UserUpdate, User); (ProductUpdate, Product); (CartItemUpdate, CartItem)].

(** Each request shape with its entity. *)
Definition request_pairs : list (Model * Model) := (create_pairs ++ update_pairs)%list.

(** The fields of an entity that the server controls: its primary key,
    the foreign keys to [users.id] (the owner of the record) and the
    fields filled by a default factory (the timestamps). *)
Definition server_controlled_field (f : ModelField) : bool :=
  kw_primary_key (info f) ||
  match kw_foreign_key (info f) with
  | Some target => String.eqb target "users.id"
  | None => false
  end ||
  match kw_default_factory (info f) with
  | Some _ => true
  | None => false
  end.

Definition server_controlled (E : Model) : list string :=
  map fname (filter server_controlled_field (fields E)).

(** A validated value against the value supplied for it: the same value,
    or the decimal that a literal or an integer denotes, or the member of
    an enumeration that a value names. *)
Definition reads_as (x v : pyval) : Prop :=
  v = x \/
  (exists s d, x = VStr s /\ parse_decimal s = Some d /\ v = VDecimal d) \/
  (exists z, x = VInt z /\ v = VDecimal (Decimal_of_int z)) \/
  (exists cls s, x = VStr s /\ v = VEnum cls s).

(** The value of a decimal is [k] units of [10^-p]. *)
Definition has_units (p : nat) (d : Decimal) (k : Z) : Prop :=
  Decimal_to_Q d == Qmake k (Z.to_pos (10 ^ Z.of_nat p)).

(** Counters and flags of the entities. *)
Definition zero_counters : list string :=
  ["total_sales"; "total_sold"; "total_reviews"; "helpful_count"; "stock_quantity";
   "sort_order"].

Definition false_flags : list string :=
  ["is_verified"; "is_featured"; "is_verified_purchase"; "is_default"].

Definition zero_fees : list string :=
  ["shipping_fee"; "tax_amount"; "discount_amount"; "insurance_fee"].

(** Characters of a string. *)
Fixpoint count_char (c : ascii) (s : string) : nat :=
  match s with
  | EmptyString => O
  | String a rest => ((if Ascii.eqb a c then 1 else 0) + count_char c rest)%nat
  end.

Fixpoint string_forall (P : ascii -> bool) (s : string) : bool :=
  match s with
  | EmptyString => true
  | String a rest => P a && string_forall P rest
  end.

Definition is_alnum (c : ascii) : bool :=
  in_range "a" "z" c || in_range "A" "Z" c || in_range "0" "9" c.

(** The characters the e-mail pattern lets through, [@] apart. *)
Definition email_part_char (c : ascii) : bool :=
  is_alnum c || Ascii.eqb c "_" || Ascii.eqb c "." || Ascii.eqb c "+" || Ascii.eqb c "-".

(** Patterns that consume exactly one character, and the characters they
    take. *)
Fixpoint single_char (r : re) : bool :=
  match r with
  | Void => true
  | Chr _ => true
  | Range _ _ => true
  | Alt r1 r2 => single_char r1 && single_char r2
  | _ => false
  end.

Definition accepts1 (r : re) (c : ascii) : bool := nullable (deriv c r).

(* ------------------------------------------------------------------ *)
(** ** Sample data *)

Definition product_data (price : string) : row :=
  [("seller_id", VInt 7); ("category_id", VInt 3); ("name", VStr "Kettle"); ("description", VStr "Steel kettle");
   ("price", VStr price); ("weight_kg", VStr "1.250")].

Definition user_create_data (email password : string) : row :=
  [("email", VStr email); ("password", VStr password); ("full_name", VStr "Ani")].


Definition cart_item_data (quantity : Z) : row :=
  [("user_id", VInt 1); ("product_id", VInt 2); ("quantity", VInt quantity)].

Definition delivery_row (id order_id : Z) : row :=
  [("id", VInt id); ("order_id", VInt order_id); ("courier_name", VStr "JNE")].

Definition address_create_data : row :=
  [("label", VStr "Home"); ("full_address", VStr "Jl. Merdeka 1"); ("city", VStr "Bandung");
   ("state", VStr "Jawa Barat"); ("postal_code", VStr "40111")].

Definition user_data : row :=
  [("email", VStr "ani@toko.id"); ("password_hash", VStr "x1f9"); ("full_name", VStr "Ani")].

(** The sample product as [ProductCreate] returns it. *)
Definition product_create_validated : row :=
  match validate_model 0 ProductCreate (product_data "99.99") with
  | Ok c => c
  | Err _ => []
  end.

Definition order_data : row :=
  [("user_id", VInt 1); ("shipping_address_id", VInt 4); ("order_number", VStr "ORD-0001");
   ("subtotal", VStr "150000.00"); ("total_amount", VStr "159000.50");
   ("payment_method", VStr "transfer")].

(* ------------------------------------------------------------------ *)
(** ** Proof steps over the declared fields *)

(** Case analysis on membership in a literal list of fields or names. *)
Ltac field_cases H :=
  simpl in H;
  repeat (destruct H as [<-|H]; [|]);
  [..|contradiction].

(** The conjuncts of [field_compatible] on two literal fields. *)
Ltac solve_field_compatible :=
  repeat split;
  try (left; reflexivity); try (right; reflexivity);
  intros ? [= <-]; reflexivity.

(** Case analysis on membership in the lists of classes. *)
Ltac model_cases H :=
  unfold all_models, persistent_models, transient_models in H; simpl in H;
  repeat (destruct H as [<-|H]; [|]);
  [..|contradiction].

Ltac entity_cases H :=
  unfold persistent_models in H; simpl in H;
  repeat (destruct H as [<-|H]; [|]);
  [..|contradiction].

(** Membership of a literal in a literal list. *)
Ltac find_in_list := repeat (first [left; reflexivity | right]).

(* ------------------------------------------------------------------ *)
(** ** General facts about validation *)

(** The validated data hold, under each field name, what that field's
    validation returned. *)
Lemma validate_fields_lookup now fs input vals :
  validate_fields now fs input = ([], vals) ->
  forall name,
    lookup name vals =
    match find (fun f => String.eqb (fname f) name) fs with
    | Some f => to_option (validate_field now f input)
    | None => None
  end.
Proof.
  revert vals. induction fs as [|f fs IH]; simpl; intros vals H name.
  - inversion H. reflexivity.
  - destruct (validate_fields now fs input) as [errs vs] eqn:E.
    destruct (validate_field now f input) as [v|e] eqn:Ef; inversion H; subst.
    simpl. rewrite (String.eqb_sym name (fname f)).
    destruct (String.eqb (fname f) name); simpl.
    + rewrite Ef. reflexivity.
    + apply IH. reflexivity.
Qed.

Lemma validate_model_lookup now m input vals :
  validate_model now m input = Ok vals ->
  forall name,
    lookup name vals =
    match get_field m name with
    | Some f => to_option (validate_field now f input)
    | None => None
  end.
Proof.
  unfold validate_model, get_field. intros H name.
  destruct (validate_fields now (fields m) input) as [[|e errs] vs] eqn:E; inversion H; subst.
  now apply validate_fields_lookup.
Qed.

Lemma validate_fields_errs now fs input :
  fst (validate_fields now fs input) = [] <->
  (forall f, In f fs -> is_ok (validate_field now f input) = true).
Proof.
  induction fs as [|f fs IH]; simpl.
  - split; [intros _ f [] | reflexivity].
  - destruct (validate_fields now fs input) as [errs vs]; simpl in *.
    destruct (validate_field now f input) as [v|e] eqn:Ef; simpl.
    + rewrite IH. split.
      * intros H g [<-|Hg]; [now rewrite Ef | now apply H].
      * intros H g Hg. apply H. now right.
    + split; [discriminate|].
      intros H. specialize (H f (or_introl eq_refl)). rewrite Ef in H. discriminate.
Qed.

(** A class validates exactly when each of its fields does. *)
Lemma validate_model_ok_iff now m input :
  is_ok (validate_model now m input) = true <->
  (forall f, In f (fields m) -> is_ok (validate_field now f input) = true).
Proof.
  rewrite <- validate_fields_errs. unfold validate_model.
  destruct (validate_fields now (fields m) input) as [[|e errs] vs]; simpl;
    split; congruence.
Qed.

Lemma validate_model_field_ok now m input vals f :
  validate_model now m input = Ok vals ->
  In f (fields m) ->
  exists v, validate_field now f input = Ok v.
Proof.
  intros H Hf.
  assert (Hok : is_ok (validate_model now m input) = true) by now rewrite H.
  rewrite validate_model_ok_iff in Hok. specialize (Hok f Hf).
  destruct (validate_field now f input) as [v|e]; [eauto | discriminate].
Qed.

Lemma is_ok_true {E A} (r : result E A) :
  is_ok r = true -> exists a, r = Ok a.
Proof. destruct r; [eauto | discriminate]. Qed.

Lemma get_field_In m name f :
  get_field m name = Some f -> In f (fields m) /\ fname f = name.
Proof.
  unfold get_field. intros H. apply find_some in H. destruct H as [H1 H2].
  split; [assumption | now apply String.eqb_eq].
Qed.

(** The keys of validated data are the field names of the class. *)
Lemma validate_fields_keys now fs input vals name :
  validate_fields now fs input = ([], vals) ->
  ~ In name (map fname fs) -> lookup name vals = None.
Proof.
  intros H Hn. rewrite (validate_fields_lookup _ _ _ _ H).
  destruct (find _ fs) as [f|] eqn:Ef; [|reflexivity].
  apply find_some in Ef. destruct Ef as [Hin Heq]. apply String.eqb_eq in Heq.
  exfalso. apply Hn. subst name. now apply in_map.
Qed.

(* ------------------------------------------------------------------ *)
(** ** Decimals: what precision and scale bound *)

Lemma ndigits_aux_bound fuel :
  forall n, (n < 2 ^ N.of_nat fuel)%N ->
            (n < 10 ^ N.of_nat (ndigits_aux fuel n))%N.
Proof.
  induction fuel as [|fuel IH]; intros n H.
  - simpl in *. change (10 ^ 1)%N with 10%N. lia.
  - cbn [ndigits_aux]. destruct (n <? 10)%N eqn:E.
    + apply N.ltb_lt in E. exact E.
    + apply N.ltb_ge in E.
      assert (Hq : (n / 10 < 2 ^ N.of_nat fuel)%N).
      { apply N.Div0.div_lt_upper_bound.
        rewrite Nat2N.inj_succ, N.pow_succ_r' in H. lia. }
      specialize (IH _ Hq).
      rewrite Nat2N.inj_succ, N.pow_succ_r'.
      pose proof (N.div_mod n 10 ltac:(lia)) as Hdm.
      pose proof (N.mod_lt n 10 ltac:(lia)) as Hm.
      lia.
Qed.

Lemma ndigits_bound (n : N) : Z.of_N n < 10 ^ Z.of_nat (ndigits n).
Proof.
  assert (H : (n < 10 ^ N.of_nat (ndigits n))%N).
  { unfold ndigits. apply ndigits_aux_bound.
    rewrite N2Nat.id. apply N.size_gt. }
  apply N2Z.inj_lt in H. rewrite N2Z.inj_pow in H.
  now rewrite nat_N_Z in H.
Qed.

Lemma ndigits_aux_le fuel :
  forall n m, (1 <= m)%nat -> (n < 10 ^ N.of_nat m)%N -> (ndigits_aux fuel n <= m)%nat.
Proof.
  induction fuel as [|fuel IH]; intros n m Hm H; cbn [ndigits_aux]; [exact Hm|].
  destruct (n <? 10)%N eqn:E; [exact Hm|].
  apply N.ltb_ge in E.
  destruct m as [|[|m]]; [lia | change (10 ^ N.of_nat 1)%N with 10%N in H; lia |].
  apply le_n_S. apply IH; [lia|].
  apply N.Div0.div_lt_upper_bound.
  rewrite (Nat2N.inj_succ (S m)), N.pow_succ_r' in H. exact H.
Qed.

(** A number below [10^m] has at most [m] digits. *)
Lemma ndigits_le (n : N) (m : nat) :
  (1 <= m)%nat -> Z.of_N n < 10 ^ Z.of_nat m -> (ndigits n <= m)%nat.
Proof.
  intros Hm H. unfold ndigits. apply ndigits_aux_le; [exact Hm|].
  apply N2Z.inj_lt. rewrite N2Z.inj_pow. now rewrite nat_N_Z.
Qed.

(** *** Values *)

Lemma ten_pow_pos (k : Z) : 0 <= k -> 0 < 10 ^ k.
Proof. intros. apply Z.pow_pos_nonneg; lia. Qed.

(** The value of a decimal over any power of ten that clears its
    exponent. *)
Lemma Decimal_to_Q_over (d : Decimal) (K : Z) :
  0 <= K -> 0 <= dexp d + K ->
  Decimal_to_Q d == Qmake (signed_coef d * 10 ^ (dexp d + K)) (Z.to_pos (10 ^ K)).
Proof.
  intros HK He. unfold Decimal_to_Q. fold (signed_coef d).
  pose proof (ten_pow_pos K HK) as HpK.
  destruct (0 <=? dexp d) eqn:E.
  - apply Z.leb_le in E. unfold Qeq, inject_Z. simpl Qnum. simpl Qden.
    rewrite Z2Pos.id by exact HpK.
    rewrite Z.pow_add_r by lia. ring.
  - apply Z.leb_gt in E. unfold Qeq. simpl Qnum. simpl Qden.
    pose proof (ten_pow_pos (- dexp d) ltac:(lia)) as Hpe.
    rewrite !Z2Pos.id by assumption.
    replace K with ((dexp d + K) + (- dexp d)) at 1 by lia.
    rewrite Z.pow_add_r by lia. ring.
Qed.

(** Two decimals with the same sign whose coefficients agree once scaled
    to a common exponent denote the same number. *)
Lemma Decimal_to_Q_same (d n : Decimal) (j : Z) :
  dsign n = dsign d -> 0 <= j -> dexp n = dexp d + j ->
  Z.of_N (dcoef d) = Z.of_N (dcoef n) * 10 ^ j ->
  Decimal_to_Q d == Decimal_to_Q n.
Proof.
  intros Hs Hj He Hc.
  set (K := Z.max 0 (- dexp d)).
  rewrite (Decimal_to_Q_over d K) by lia.
  rewrite (Decimal_to_Q_over n K) by lia.
  unfold signed_coef. rewrite Hs, Hc, He.
  replace (dexp d + j + K) with (j + (dexp d + K)) by lia.
  rewrite (Z.pow_add_r 10 j) by lia.
  unfold Qeq. simpl Qnum. simpl Qden. ring.
Qed.

(** *** Normalizing within the context *)

Lemma strip_zeros_spec fuel :
  forall c e c' e',
    strip_zeros fuel c e = (c', e') ->
    exists j, 0 <= j /\ e' = e + j /\ Z.of_N c = Z.of_N c' * 10 ^ j.
Proof.
  induction fuel as [|fuel IH]; intros c e c' e' H; cbn [strip_zeros] in H.
  - injection H as <- <-. exists 0. split; [lia|]. split; [lia|]. simpl. lia.
  - destruct ((c mod 10 =? 0)%N && (e <? Emax)) eqn:E.
    + apply andb_true_iff in E. destruct E as [E _]. apply N.eqb_eq in E.
      destruct (IH _ _ _ _ H) as (j & Hj & He & Hc).
      exists (j + 1). split; [lia|]. split; [lia|].
      rewrite Z.pow_add_r by lia.
      pose proof (N.div_mod c 10 ltac:(lia)) as Hdm. rewrite E in Hdm.
      assert (Hz : Z.of_N c = 10 * Z.of_N (c / 10)) by lia.
      rewrite Hz, Hc. change (10 ^ 1) with 10. ring.
    + injection H as <- <-. exists 0. split; [lia|]. split; [lia|]. simpl. lia.
Qed.

(** The fuel given to [strip_zeros], the number of digits, is enough: it
    stops at a coefficient that does not end in 0, or at exponent [Emax]. *)
Lemma strip_zeros_done fuel :
  forall c e c' e',
    c <> 0%N -> (c < 10 ^ N.of_nat fuel)%N ->
    strip_zeros fuel c e = (c', e') ->
    (c' mod 10 <> 0)%N \/ Emax <= e'.
Proof.
  induction fuel as [|fuel IH]; intros c e c' e' Hc Hlt H; cbn [strip_zeros] in H.
  - simpl in Hlt. lia.
  - destruct ((c mod 10 =? 0)%N && (e <? Emax)) eqn:E.
    + apply andb_true_iff in E. destruct E as [E _]. apply N.eqb_eq in E.
      pose proof (N.div_mod c 10 ltac:(lia)) as Hdm. rewrite E in Hdm.
      apply (IH (c / 10)%N (e + 1)); [lia | | exact H].
      apply N.Div0.div_lt_upper_bound.
      rewrite Nat2N.inj_succ, N.pow_succ_r' in Hlt. exact Hlt.
    + injection H as <- <-. apply andb_false_iff in E. destruct E as [E|E].
      * left. now apply N.eqb_neq.
      * right. now apply Z.ltb_ge.
Qed.

(** Within the context nothing is rounded: what [normalize()] returns,
    and the decimal itself when it raises, has the sign and the value of
    the decimal, and an exponent no lower. *)
Lemma normalized_in_context (d : Decimal) :
  in_context d ->
  Decimal_to_Q d == Decimal_to_Q (normalized d) /\
  (dcoef d <> 0%N -> dexp d <= dexp (normalized d)).
Proof.
  intros Hc. unfold normalized, normalize, Decimal_fix.
  destruct (dcoef d =? 0)%N eqn:E0.
  - apply N.eqb_eq in E0. cbn [dcoef N.eqb]. split; [|congruence].
    unfold Decimal_to_Q. cbn [dsign dcoef dexp]. rewrite E0.
    destruct (0 <=? dexp d); destruct (dsign d); reflexivity.
  - apply N.eqb_neq in E0. destruct Hc as [Hc|[HL He]]; [contradiction|].
    destruct (Etop <? Z.of_nat (ndigits (dcoef d)) + dexp d - prec);
      [split; [reflexivity | lia]|].
    assert (Hlt : (dexp d <? Z.max (Z.of_nat (ndigits (dcoef d)) + dexp d - prec) Etiny)
                  = false) by (apply Z.ltb_ge; lia).
    rewrite Hlt. apply N.eqb_neq in E0. rewrite E0.
    destruct (strip_zeros (ndigits (dcoef d)) (dcoef d) (dexp d)) as [c e] eqn:Es.
    destruct (strip_zeros_spec _ _ _ _ _ Es) as (j & Hj & Hej & Hcj).
    split.
    + apply Decimal_to_Q_same with j; cbn [dsign dcoef dexp]; auto.
    + intros _. cbn [dexp]. lia.
Qed.

(** *** What the limits bound *)

Lemma decimal_digits_places (d : Decimal) (p : Z) :
  snd (decimal_digits d) <= p -> 0 <= p -> - p <= dexp d.
Proof.
  unfold decimal_digits.
  destruct (0 <=? dexp d) eqn:E; [apply Z.leb_le in E; simpl; lia|].
  apply Z.leb_gt in E.
  destruct (_ <? Z.abs (dexp d)); simpl; lia.
Qed.

Lemma decimal_digits_whole (d : Decimal) (w : Z) :
  fst (decimal_digits d) - snd (decimal_digits d) <= w -> 0 <= w ->
  forall K, 0 <= dexp d + K -> Z.of_N (dcoef d) * 10 ^ (dexp d + K) < 10 ^ (w + K).
Proof.
  intros Hw Hw0 K HK.
  pose proof (ndigits_bound (dcoef d)) as Hn.
  set (len := Z.of_nat (ndigits (dcoef d))) in *.
  assert (Hlen : 0 <= len) by (unfold len; lia).
  assert (Hle : len + dexp d <= w).
  { unfold decimal_digits in Hw. fold len in Hw.
    destruct (0 <=? dexp d) eqn:E; [apply Z.leb_le in E; simpl in Hw; lia|].
    apply Z.leb_gt in E.
    destruct (len <? Z.abs (dexp d)) eqn:E1; simpl in Hw.
    - apply Z.ltb_lt in E1. lia.
    - lia. }
  pose proof (ten_pow_pos (dexp d + K) HK) as Hp.
  destruct (Z_le_gt_dec 0 (len + dexp d + K)) as [Hs|Hs].
  - apply Z.lt_le_trans with (10 ^ len * 10 ^ (dexp d + K)).
    + apply Z.mul_lt_mono_pos_r; assumption.
    + rewrite <- Z.pow_add_r by lia. apply Z.pow_le_mono_r; lia.
  - exfalso. lia.
Qed.

(** A decimal accepted under [max_digits = m] and [decimal_places = p] is
    kept as it is; when the context holds it without rounding, its value
    is a whole number [k] of units of [10^-p], with [|k| < 10^m]. *)
Lemma validate_decimal_bound kws d v m p :
  validate_decimal kws d = Ok v ->
  kw_max_digits kws = Some m ->
  kw_decimal_places kws = Some p ->
  (p <= m)%nat ->
  v = VDecimal d /\
  (in_context d -> exists k, has_units p d k /\ Z.abs k < 10 ^ Z.of_nat m).
Proof.
  unfold validate_decimal. intros H Hm Hp Hpm.
  destruct (decimal_digits d) as [digits decimals] eqn:Ed.
  destruct (decimal_digits (normalized d)) as [ndigs ndecs] eqn:En.
  rewrite Hm, Hp in H. cbn [check_opt bind] in H.
  destruct ((digits <=? Z.of_nat m) || (ndigs <=? Z.of_nat m)); [|discriminate].
  cbn [bind] in H.
  destruct ((decimals <=? Z.of_nat p) || (ndecs <=? Z.of_nat p)) eqn:Epl; [|discriminate].
  cbn [bind] in H.
  destruct ((digits - decimals <=? Z.of_nat (m - p))
            || (ndigs - ndecs <=? Z.of_nat (m - p))) eqn:Ew; [|discriminate].
  cbn [bind] in H. injection H as <-. split; [reflexivity|].
  intros Hc.
  destruct (normalized_in_context d Hc) as [Hval Hexp].
  set (n := normalized d) in *.
  (* the normalized decimal has at most p places *)
  assert (Hnp : - Z.of_nat p <= dexp n).
  { destruct (N.eq_dec (dcoef d) 0) as [Hz|Hnz].
    - unfold n, normalized, normalize, Decimal_fix.
      apply N.eqb_eq in Hz. rewrite Hz. cbn [dcoef N.eqb dexp]. lia.
    - specialize (Hexp Hnz).
      apply orb_true_iff in Epl. destruct Epl as [E|E]; apply Z.leb_le in E.
      + pose proof (decimal_digits_places d (Z.of_nat p)) as Hd.
        rewrite Ed in Hd. simpl in Hd. specialize (Hd E ltac:(lia)). lia.
      + pose proof (decimal_digits_places n (Z.of_nat p)) as Hd.
        rewrite En in Hd. simpl in Hd. apply Hd; [exact E | lia]. }
  exists (signed_coef n * 10 ^ (dexp n + Z.of_nat p)). split.
  - unfold has_units. rewrite Hval. apply Decimal_to_Q_over; lia.
  - (* magnitude, from whichever count passed the whole-digits check *)
    assert (Habs : Z.abs (signed_coef n * 10 ^ (dexp n + Z.of_nat p))
                   = Z.of_N (dcoef n) * 10 ^ (dexp n + Z.of_nat p)).
    { pose proof (ten_pow_pos (dexp n + Z.of_nat p) ltac:(lia)).
      unfold signed_coef. rewrite !Z.abs_mul.
      rewrite (Z.abs_eq (10 ^ _)) by lia. rewrite (Z.abs_eq (Z.of_N _)) by lia.
      destruct (dsign n); simpl Z.abs; lia. }
    rewrite Habs.
    replace (Z.of_nat m) with (Z.of_nat (m - p) + Z.of_nat p) by lia.
    apply orb_true_iff in Ew. destruct Ew as [E|E]; apply Z.leb_le in E.
    + (* as written *)
      destruct (N.eq_dec (dcoef d) 0) as [Hz|Hnz].
      * assert (Hn0 : dcoef n = 0%N).
        { unfold n, normalized, normalize, Decimal_fix.
          apply N.eqb_eq in Hz. rewrite Hz. reflexivity. }
        rewrite Hn0. simpl. apply ten_pow_pos. lia.
      * specialize (Hexp Hnz).
        pose proof (decimal_digits_whole d (Z.of_nat (m - p))) as Hd.
        rewrite Ed in Hd. simpl in Hd.
        set (K := Z.of_nat p + (dexp n - dexp d)).
        specialize (Hd E ltac:(lia) K ltac:(unfold K; lia)).
        (* the two scaled coefficients agree *)
        assert (Hsame : Z.of_N (dcoef d) * 10 ^ (dexp d + K)
                        = Z.of_N (dcoef n) * 10 ^ (dexp n + Z.of_nat p) * 10 ^ (dexp n - dexp d)).
        { assert (Hq : Decimal_to_Q d == Decimal_to_Q n) by exact Hval.
          rewrite (Decimal_to_Q_over d K) in Hq by (unfold K; lia).
          rewrite (Decimal_to_Q_over n K) in Hq by (unfold K; lia).
          unfold Qeq in Hq. simpl Qnum in Hq. simpl Qden in Hq.
          pose proof (ten_pow_pos K ltac:(unfold K; lia)) as HpK.
          apply Z.mul_cancel_r in Hq; [|rewrite Z2Pos.id by exact HpK; lia].
          unfold signed_coef in Hq.
          assert (Hsg : dsign n = dsign d).
          { unfold n, normalized, normalize, Decimal_fix.
            destruct (dcoef d =? 0)%N; [reflexivity|].
            destruct (Etop <? _); [reflexivity|].
            destruct (dexp d <? _).
            - destruct (Etop <? _); [reflexivity|]. cbn [dcoef dsign dexp].
              destruct (_ =? 0)%N; [reflexivity|].
              destruct (strip_zeros _ _ _); reflexivity.
            - destruct (dcoef d =? 0)%N; [reflexivity|].
              destruct (strip_zeros _ _ _); reflexivity. }
          rewrite Hsg in Hq.
          assert (Hq' : Z.of_N (dcoef d) * 10 ^ (dexp d + K)
                        = Z.of_N (dcoef n) * 10 ^ (dexp n + K))
            by (destruct (dsign d); lia).
          rewrite Hq'. unfold K.
          replace (dexp n + (Z.of_nat p + (dexp n - dexp d)))
            with ((dexp n + Z.of_nat p) + (dexp n - dexp d)) by lia.
          rewrite Z.pow_add_r by lia. ring. }
        rewrite Hsame in Hd.
        replace (Z.of_nat (m - p) + K)
          with ((Z.of_nat (m - p) + Z.of_nat p) + (dexp n - dexp d)) in Hd by (unfold K; lia).
        rewrite (Z.pow_add_r 10 (Z.of_nat (m - p) + Z.of_nat p)) in Hd by lia.
        pose proof (ten_pow_pos (dexp n - dexp d) ltac:(lia)) as Hpj.
        apply Z.mul_lt_mono_pos_r in Hd; assumption.
    + (* normalized *)
      pose proof (decimal_digits_whole n (Z.of_nat (m - p))) as Hd.
      rewrite En in Hd. simpl in Hd.
      apply Hd; [exact E | lia | lia].
Qed.

Lemma validate_decimal_same kws d v :
  validate_decimal kws d = Ok v -> v = VDecimal d.
Proof.
  unfold validate_decimal. destruct (decimal_digits d) as [digits decimals].
  destruct (decimal_digits (normalized d)) as [ndigs ndecs]. intros H.
  destruct (check_opt (kw_max_digits kws) _ _); [|discriminate]. cbn [bind] in H.
  destruct (check_opt (kw_decimal_places kws) _ _); [|discriminate]. cbn [bind] in H.
  destruct (match kw_max_digits kws with Some _ => _ | None => _ end); [|discriminate].
  cbn [bind] in H. congruence.
Qed.

(** A value given for a field of a class that validates was accepted by
    that field, and the validated data hold what the field returned. *)
Lemma validate_model_given now m input vals name f v :
  validate_model now m input = Ok vals ->
  get_field m name = Some f ->
  lookup name input = Some v ->
  exists v', validate_type (annotation f) (info f) v = Ok v' /\
             lookup name vals = Some v'.
Proof.
  intros H Hf Hv.
  pose proof (validate_model_lookup _ _ _ _ H name) as Hl. rewrite Hf in Hl.
  destruct (get_field_In _ _ _ Hf) as [Hin Hname].
  destruct (validate_model_field_ok _ _ _ _ _ H Hin) as [v' Hv'].
  rewrite Hv' in Hl. exists v'. split; [|exact Hl].
  unfold validate_field in Hv'. rewrite Hname, Hv in Hv'.
  destruct (validate_type (annotation f) (info f) v); [congruence | discriminate].
Qed.

(** A value refused by its field makes the whole class fail. *)
Lemma validate_model_rejects now m input name f v :
  get_field m name = Some f ->
  lookup name input = Some v ->
  is_ok (validate_type (annotation f) (info f) v) = false ->
  is_ok (validate_model now m input) = false.
Proof.
  intros Hf Hv Hbad.
  destruct (validate_model now m input) as [vals|errs] eqn:H; [|reflexivity].
  destruct (validate_model_given _ _ _ _ _ _ _ H Hf Hv) as (v' & Hok & _).
  rewrite Hok in Hbad. discriminate.
Qed.

(** A required field is present in any input that validates. *)
Lemma validate_model_required now m input vals name f :
  validate_model now m input = Ok vals ->
  get_field m name = Some f ->
  kw_default (info f) = None ->
  kw_default_factory (info f) = None ->
  exists v, lookup name input = Some v.
Proof.
  intros H Hf Hd Hg.
  destruct (get_field_In _ _ _ Hf) as [Hin Hname].
  destruct (validate_model_field_ok _ _ _ _ _ H Hin) as [v' Hv'].
  unfold validate_field in Hv'. rewrite Hname, Hd, Hg in Hv'.
  destruct (lookup name input) as [v|]; [eauto | discriminate].
Qed.

Lemma validate_type_decimal kws x v :
  validate_type TDecimal kws x = Ok v ->
  exists d, validate_decimal kws d = Ok v.
Proof.
  destruct x; simpl; try discriminate; eauto.
  destruct (parse_decimal s); [eauto | discriminate].
Qed.

(* ------------------------------------------------------------------ *)
(** ** Prices *)

(** Every whole number of hundredths below [10^12] in absolute value is
    accepted as a price, written with two decimal places. *)
Lemma validate_decimal_accepts (m p : nat) (k : Z) :
  (1 <= p <= m)%nat ->
  Z.abs k < 10 ^ Z.of_nat m ->
  validate_decimal [Kw.max_digits m; Kw.decimal_places p]
                   (mkDecimal (k <? 0) (Z.abs_N k) (- Z.of_nat p))
  = Ok (VDecimal (mkDecimal (k <? 0) (Z.abs_N k) (- Z.of_nat p))).
Proof.
  intros Hpm Hk. unfold validate_decimal.
  set (d := mkDecimal (k <? 0) (Z.abs_N k) (- Z.of_nat p)).
  assert (HL : (ndigits (Z.abs_N k) <= m)%nat)
    by (apply ndigits_le; [lia | rewrite N2Z.inj_abs_N; exact Hk]).
  assert (Hd : exists digits, decimal_digits d = (digits, Z.of_nat p) /\
                              digits <= Z.of_nat m)
    by (unfold decimal_digits, d; cbn [dcoef dexp];
        destruct (0 <=? - Z.of_nat p) eqn:E; [apply Z.leb_le in E; lia|];
        rewrite Z.abs_opp, Z.abs_eq by lia;
        destruct (_ <? Z.of_nat p) eqn:E1; eexists; split; try reflexivity; lia).
  destruct Hd as (digits & -> & Hdig).
  destruct (decimal_digits (normalized d)) as [ndigs ndecs].
  cbn [kw_max_digits kw_decimal_places find_kw check_opt bind].
  assert (E1 : (digits <=? Z.of_nat m) = true) by (apply Z.leb_le; lia).
  assert (E2 : (Z.of_nat p <=? Z.of_nat p) = true) by (apply Z.leb_le; lia).
  assert (E3 : (digits - Z.of_nat p <=? Z.of_nat (m - p)) = true) by (apply Z.leb_le; lia).
  rewrite E1, E2, E3. reflexivity.
Qed.

(** C1.  Every [Decimal] field of the schema declares its precision and
    scale.  [Product.price] and [ProductCreate.price] declare 12 digits in
    all, 2 of them decimal places.  Whatever the rest of the input, a
    price given as "19999999999.99" makes validation fail; a price given
    as "99.99" is stored as the decimal with coefficient 9999 and
    exponent -2, whose value is the rational 9999/100, and the sample
    product with that price validates, as it does with the largest price
    of 12 digits, "9999999999.99".  A price is stored as it is given
    ("99.990" keeps its trailing zero, with exponent -3); any
    stored price that the decimal context holds without rounding (at most
    28 significant digits) is a whole number of hundredths, fewer than
    10^12 of them; and every such number of hundredths is accepted. *)
Theorem price_is_fixed_point_12_2 (m : Model) (now : Z) (input : row) :
  m = Product \/ m = ProductCreate ->
  forallb precision_declared all_models = true /\
  get_field m "price" = Some (fld "price" TDecimal [Kw.max_digits 12; Kw.decimal_places 2]) /\
  (lookup "price" input = Some (VStr "19999999999.99") ->
   is_ok (validate_model now m input) = false) /\
  (lookup "price" input = Some (VStr "99.99") ->
   forall vals, validate_model now m input = Ok vals ->
                lookup "price" vals = Some (VDecimal (mkDecimal false 9999 (-2)))) /\
  (lookup "price" input = Some (VStr "99.990") ->
   forall vals, validate_model now m input = Ok vals ->
                lookup "price" vals = Some (VDecimal (mkDecimal false 99990 (-3)))) /\
  is_ok (validate_model now m (product_data "99.99")) = true /\
  is_ok (validate_model now m (product_data "9999999999.99")) = true /\
  Decimal_to_Q (mkDecimal false 9999 (-2)) == 9999 # 100 /\
  (forall vals, validate_model now m input = Ok vals ->
                exists d, lookup "price" vals = Some (VDecimal d) /\
                          (forall d0, lookup "price" input = Some (VDecimal d0) -> d = d0) /\
                          (in_context d ->
                           exists k, has_units 2 d k /\ Z.abs k < 10 ^ 12)) /\
  (forall k, Z.abs k < 10 ^ 12 ->
             validate_type TDecimal [Kw.max_digits 12; Kw.decimal_places 2]
                           (VDecimal (mkDecimal (k <? 0) (Z.abs_N k) (-2)))
             = Ok (VDecimal (mkDecimal (k <? 0) (Z.abs_N k) (-2)))).
Proof.
  intros Hm.
  assert (Hf : get_field m "price"
               = Some (fld "price" TDecimal [Kw.max_digits 12; Kw.decimal_places 2]))
    by (destruct Hm; subst m; reflexivity).
  split; [vm_compute; reflexivity|].
  split; [exact Hf|].
  split.
  { intros Hp. apply (validate_model_rejects now m input _ _ _ Hf Hp).
    vm_compute. reflexivity. }
  split.
  { intros Hp vals H.
    destruct (validate_model_given _ _ _ _ _ _ _ H Hf Hp) as (v' & Hv & Hl).
    vm_compute in Hv. congruence. }
  split.
  { intros Hp vals H.
    destruct (validate_model_given _ _ _ _ _ _ _ H Hf Hp) as (v' & Hv & Hl).
    vm_compute in Hv. congruence. }
  split; [destruct Hm; subst m; vm_compute; reflexivity|].
  split; [destruct Hm; subst m; vm_compute; reflexivity|].
  split; [reflexivity|].
  split.
  { intros vals H.
    destruct (validate_model_required _ _ _ _ _ _ H Hf eq_refl eq_refl) as [x Hx].
    destruct (validate_model_given _ _ _ _ _ _ _ H Hf Hx) as (v' & Hv & Hl).
    pose proof Hv as Hv0.
    apply validate_type_decimal in Hv. destruct Hv as [d Hd].
    destruct (validate_decimal_bound _ _ _ 12%nat 2%nat Hd eq_refl eq_refl ltac:(lia))
      as (-> & Hb).
    exists d. split; [exact Hl|]. split; [|exact Hb].
    intros d0 Hd0. rewrite Hx in Hd0. injection Hd0 as ->.
    cbn [annotation info validate_type] in Hv0.
    apply validate_decimal_same in Hv0. congruence. }
  intros k Hk. apply (validate_decimal_accepts 12 2 k); [lia | exact Hk].
Qed.

Lemma price_is_fixed_point_12_2_witness :
  is_ok (validate_model 0 ProductCreate (product_data "19999999999.99")) = false /\
  is_ok (validate_model 0 ProductCreate (product_data "99.99")) = true.
Proof.
  pose proof (price_is_fixed_point_12_2 ProductCreate 0
                (product_data "19999999999.99") (or_intror eq_refl))
    as (_ & _ & Hbad & _ & _ & Hgood & _).
  split; [apply Hbad; reflexivity | exact Hgood].
Defined.

(** A field that the input leaves out takes its declared default. *)
Lemma validate_model_default now m input vals name f dflt :
  validate_model now m input = Ok vals ->
  get_field m name = Some f ->
  kw_default (info f) = Some dflt ->
  lookup name input = None ->
  lookup name vals = Some dflt.
Proof.
  intros H Hf Hd Hn.
  rewrite (validate_model_lookup _ _ _ _ H name), Hf.
  destruct (get_field_In _ _ _ Hf) as [_ Hname].
  unfold validate_field. rewrite Hname, Hn, Hd. reflexivity.
Qed.

Lemma validate_type_int kws x v :
  validate_type TInt kws x = Ok v ->
  exists z, x = VInt z /\ v = VInt z /\
            (forall l, kw_ge kws = Some l -> l <= z) /\
            (forall l, kw_le kws = Some l -> z <= l).
Proof.
  destruct x; simpl; try discriminate.
  unfold validate_int, check_opt. intros H. exists z.
  destruct (kw_ge kws) as [g|]; destruct (kw_le kws) as [l|]; cbn [bind] in H;
    repeat match type of H with
           | context [?a <=? ?b] =>
               let E := fresh "E" in
               destruct (a <=? b) eqn:E; [apply Z.leb_le in E | discriminate];
               cbn [bind] in H
           end;
    inversion H; repeat split; intros ? [= <-]; assumption.
Qed.

(* ------------------------------------------------------------------ *)
(** ** Cart quantities *)

(** [CartItemCreate] and [CartItemUpdate] refuse a quantity below 1,
    whatever else the input holds. *)
Lemma cart_request_quantity_at_least_1 (m : Model) (now : Z) (input : row) :
  m = CartItemCreate \/ m = CartItemUpdate ->
  forall vals, validate_model now m input = Ok vals ->
  exists q, lookup "quantity" vals = Some (VInt q) /\ 1 <= q.
Proof.
  intros Hm vals H.
  destruct (lookup "quantity" input) as [x|] eqn:Hx.
  - assert (Hf : exists f, get_field m "quantity" = Some f /\ annotation f = TInt /\
                           kw_ge (info f) = Some 1)
      by (destruct Hm; subst m; eexists; repeat split).
    destruct Hf as (f & Hf & Ha & Hg).
    destruct (validate_model_given _ _ _ _ _ _ _ H Hf Hx) as (v' & Hv & Hl).
    rewrite Ha in Hv. apply validate_type_int in Hv.
    destruct Hv as (z & -> & -> & Hge & _). exists z. split; [exact Hl | now apply Hge].
  - destruct Hm; subst m.
    + exists 1. split; [|lia].
      eapply validate_model_default; [exact H | reflexivity | reflexivity | exact Hx].
    + destruct (validate_model_required now CartItemUpdate input vals "quantity" _ H
                  eq_refl eq_refl eq_refl) as [v Hv].
      congruence.
Qed.

(** C2.  The persistent [CartItem] declares [quantity] with a default only:
    the cart item with quantity 0 validates and keeps quantity 0, as does
    one with quantity -3, while the same quantities are refused by
    [CartItemCreate] and [CartItemUpdate], which declare [ge=1]. *)
Theorem cart_item_quantity_zero_accepted :
  validate_model 0 CartItem (cart_item_data 0)
  = Ok [("id", VNone); ("user_id", VInt 1); ("product_id", VInt 2);
        ("quantity", VInt 0); ("added_at", VDatetime 0)] /\
  is_ok (validate_model 0 CartItem (cart_item_data (-3))) = true /\
  validate_model 0 CartItemCreate (cart_item_data 0)
  = Err [mkError "quantity" (number_not_ge 1)] /\
  validate_model 0 CartItemUpdate (cart_item_data 0)
  = Err [mkError "quantity" (number_not_ge 1)] /\
  option_map (fun f => kw_ge (info f)) (get_field CartItem "quantity") = Some None /\
  option_map (fun f => kw_ge (info f)) (get_field CartItemCreate "quantity") = Some (Some 1) /\
  option_map (fun f => kw_ge (info f)) (get_field CartItemUpdate "quantity") = Some (Some 1).
Proof. repeat split. Qed.

(* ------------------------------------------------------------------ *)
(** ** Ratings *)




(** C4.  For [ProductReview] and [ProductReviewCreate]: an input without a
    rating is refused, and for an input whose rating is the integer [z],
    the other fields being acceptable, validation succeeds if and only if
    [1 <= z <= 5]. *)
Theorem review_rating_between_1_and_5 (m : Model) (now : Z) (input : row) (z : Z) :
  m = ProductReview \/ m = ProductReviewCreate ->
  lookup "rating" input = Some (VInt z) ->
  (forall f, In f (fields m) -> fname f <> "rating" ->
             is_ok (validate_field now f input) = true) ->
  (is_ok (validate_model now m input) = true <-> 1 <= z <= 5) /\
  (forall input', lookup "rating" input' = None ->
                  is_ok (validate_model now m input') = false).
Proof.
  intros Hm Hx Hrest.
  set (f := fld "rating" TInt [Kw.ge 1; Kw.le 5]).
  assert (Hf : get_field m "rating" = Some f) by (destruct Hm; subst m; reflexivity).
  split; [split|].
  - intros Hok. apply is_ok_true in Hok. destruct Hok as [vals H].
    destruct (validate_model_given _ _ _ _ _ _ _ H Hf Hx) as (v' & Hv & _).
    apply validate_type_int in Hv. destruct Hv as (z' & [= <-] & _ & Hge & Hle).
    split; [now apply Hge | now apply Hle].
  - intros [Hlo Hhi].
    apply validate_model_ok_iff. intros g Hg.
    destruct (String.eqb (fname g) "rating") eqn:E.
    + assert (g = f).
      { apply String.eqb_eq in E.
        destruct Hm; subst m; simpl in Hg;
          repeat (destruct Hg as [<-|Hg]; [try discriminate E; try reflexivity|]);
          contradiction. }
      subst g. unfold validate_field. simpl fname. rewrite Hx. simpl.
      apply Z.leb_le in Hlo, Hhi.
      unfold validate_int. simpl. rewrite Hlo. simpl. rewrite Hhi. reflexivity.
    + apply Hrest; [exact Hg|]. now apply String.eqb_neq.
  - intros input' Hnone.
    destruct (validate_model now m input') as [vals|errs] eqn:H; [|reflexivity].
    destruct (validate_model_required _ _ _ _ _ _ H Hf eq_refl eq_refl) as [x Hx'].
    congruence.
Qed.

Lemma review_rating_between_1_and_5_witness :
  (is_ok (validate_model 0 ProductReviewCreate [("rating", VInt 3)]) = true <-> 1 <= 3 <= 5) /\
  (is_ok (validate_model 0 ProductReview
            [("product_id", VInt 2); ("user_id", VInt 1); ("rating", VInt 6)]) = true
   <-> 1 <= 6 <= 5).
Proof.
  split.
  - apply (review_rating_between_1_and_5 ProductReviewCreate 0 [("rating", VInt 3)] 3).
    + right. reflexivity.
    + reflexivity.
    + intros f Hin Hne. field_cases Hin; try reflexivity; exfalso; apply Hne; reflexivity.
  - apply (review_rating_between_1_and_5 ProductReview 0
             [("product_id", VInt 2); ("user_id", VInt 1); ("rating", VInt 6)] 6).
    + left. reflexivity.
    + reflexivity.
    + intros f Hin Hne. field_cases Hin; try reflexivity; exfalso; apply Hne; reflexivity.
Defined.

(* ------------------------------------------------------------------ *)
(** ** Matching by derivatives decides the language of a pattern *)

Lemma nullable_matches r : nullable r = true -> matches r "".
Proof.
  induction r; simpl; intros H; try discriminate.
  - constructor.
  - apply orb_true_iff in H. destruct H; [apply m_alt_l | apply m_alt_r]; auto.
  - apply andb_true_iff in H. destruct H.
    change "" with ("" ++ ""). constructor; auto.
  - constructor.
Qed.

Lemma deriv_matches a r : forall s, matches (deriv a r) s -> matches r (String a s).
Proof.
  induction r; simpl; intros s H.
  - inversion H.
  - inversion H.
  - destruct (Ascii.eqb a c) eqn:E; inversion H; subst.
    apply Ascii.eqb_eq in E. subst. constructor.
  - destruct (in_range lo hi a) eqn:E; inversion H; subst. now constructor.
  - inversion H; subst; [apply m_alt_l | apply m_alt_r]; auto.
  - destruct (nullable r1) eqn:E.
    + inversion H as [| | | ? ? ? H1 | ? ? ? H2 | | |]; subst.
      * inversion H1; subst.
        change (String a (s1 ++ s2)) with (String a s1 ++ s2). constructor; auto.
      * change (String a s) with ("" ++ String a s).
        constructor; [now apply nullable_matches | auto].
    + inversion H; subst.
      change (String a (s1 ++ s2)) with (String a s1 ++ s2). constructor; auto.
  - inversion H; subst.
    change (String a (s1 ++ s2)) with (String a s1 ++ s2). constructor; auto.
Qed.

Lemma re_match_matches s : forall r, re_match r s = true -> matches r s.
Proof.
  induction s as [|a s IH]; simpl; intros r H.
  - now apply nullable_matches.
  - apply deriv_matches. now apply IH.
Qed.

Lemma app_eq_nil_string (s1 s2 : string) : s1 ++ s2 = "" -> s1 = "" /\ s2 = "".
Proof. destruct s1; simpl; [auto | discriminate]. Qed.

Lemma app_eq_cons_string (s1 s2 : string) a s :
  s1 ++ s2 = String a s ->
  (s1 = "" /\ s2 = String a s) \/ (exists s1', s1 = String a s1' /\ s = s1' ++ s2).
Proof.
  destruct s1 as [|b s1]; simpl; intros H; [left; auto|].
  injection H as -> <-. right. eauto.
Qed.

Lemma matches_nil_nullable r s : matches r s -> s = "" -> nullable r = true.
Proof.
  induction 1; simpl; intros E; try discriminate; try reflexivity.
  - rewrite IHmatches by assumption. reflexivity.
  - rewrite IHmatches by assumption. apply orb_true_r.
  - apply app_eq_nil_string in E. destruct E.
    rewrite IHmatches1, IHmatches2 by assumption. reflexivity.
Qed.

Lemma matches_deriv a r s0 :
  matches r s0 -> forall s, s0 = String a s -> matches (deriv a r) s.
Proof.
  induction 1; simpl; intros s' E; try discriminate.
  - injection E as -> <-. rewrite Ascii.eqb_refl. constructor.
  - injection E as -> <-. rewrite H. constructor.
  - apply m_alt_l. auto.
  - apply m_alt_r. auto.
  - apply app_eq_cons_string in E. destruct E as [[-> ->] | (s1' & -> & ->)].
    + rewrite (matches_nil_nullable _ _ H eq_refl). apply m_alt_r. auto.
    + destruct (nullable r1); [apply m_alt_l|]; constructor; auto.
  - apply app_eq_cons_string in E. destruct E as [[-> ->] | (s1' & -> & ->)].
    + auto.
    + constructor; auto.
Qed.

Lemma matches_re_match s : forall r, matches r s -> re_match r s = true.
Proof.
  induction s as [|a s IH]; simpl; intros r H.
  - now apply matches_nil_nullable with (s := "").
  - apply IH. now apply matches_deriv with (s0 := String a s).
Qed.

Lemma re_match_iff r s : re_match r s = true <-> matches r s.
Proof. split; [apply re_match_matches | apply matches_re_match]. Qed.

Lemma matches_nonempty r s : nullable r = false -> matches r s -> s <> "".
Proof.
  intros Hn Hm E. rewrite (matches_nil_nullable _ _ Hm E) in Hn. discriminate.
Qed.

(** What the e-mail pattern accepts: a local part, [@], a domain label,
    a dot and a suffix, each part non-empty and drawn from its class,
    and nothing more than a closing newline after it. *)
Lemma email_re_shape e :
  re_match email_re e = true <->
  exists local domain tld tail,
    e = local ++ "@" ++ domain ++ "." ++ tld ++ tail /\
    matches (plus email_local) local /\
    matches (plus email_domain) domain /\
    matches (plus email_tld) tld /\
    (tail = "" \/ tail = String newline "").
Proof.
  rewrite re_match_iff. unfold email_re, dollar. split.
  - intros H.
    inversion H as [| | | | | ? ? l s1 Hl H1 | |]; subst.
    inversion H1 as [| | | | | ? ? at_ s2 Hat H2 | |]; subst.
    inversion H2 as [| | | | | ? ? d s3 Hd H3 | |]; subst.
    inversion H3 as [| | | | | ? ? dot s4 Hdot H4 | |]; subst.
    inversion H4 as [| | | | | ? ? t nl Ht Hnl | |]; subst.
    inversion Hat; subst. inversion Hdot; subst.
    exists l, d, t, nl. repeat split; try assumption.
    inversion Hnl as [| | | ? ? ? Ha | ? ? ? Hb | | |]; subst.
    + inversion Ha. now left.
    + inversion Hb. now right.
  - intros (l & d & t & nl & -> & Hl & Hd & Ht & Hnl).
    constructor; [exact Hl|].
    change ("@" ++ d ++ "." ++ t ++ nl) with (String "@" "" ++ (d ++ "." ++ t ++ nl)).
    constructor; [constructor|].
    constructor; [exact Hd|].
    change ("." ++ t ++ nl) with (String "." "" ++ (t ++ nl)).
    constructor; [constructor|].
    constructor; [exact Ht|].
    destruct Hnl as [-> | ->]; [apply m_alt_l | apply m_alt_r]; constructor.
Qed.

(* ------------------------------------------------------------------ *)
(** ** E-mail addresses and passwords *)

Lemma validate_type_str kws x v :
  validate_type TStr kws x = Ok v ->
  exists s, x = VStr s /\ v = VStr s /\
            (forall l, kw_max_length kws = Some l -> (utf8_length s <= l)%nat) /\
            (forall l, kw_min_length kws = Some l -> (l <= utf8_length s)%nat).
Proof.
  destruct x; simpl; try discriminate.
  unfold validate_str, check_opt. intros H. exists s.
  destruct (kw_min_length kws) as [a|]; destruct (kw_max_length kws) as [b|];
    cbn [bind] in H;
    repeat match type of H with
           | context [(?a <=? ?b)%nat] =>
               let E := fresh "E" in
               destruct (a <=? b)%nat eqn:E; [apply Nat.leb_le in E | discriminate];
               cbn [bind] in H
           end;
    inversion H; repeat split; intros ? [= <-]; assumption.
Qed.

Lemma validate_str_too_short kws s l :
  kw_min_length kws = Some l ->
  (utf8_length s < l)%nat ->
  is_ok (validate_str kws s) = false.
Proof.
  unfold validate_str, check_opt. intros -> Hlt.
  destruct (l <=? utf8_length s)%nat eqn:E; [apply Nat.leb_le in E; lia | reflexivity].
Qed.

(** A [UserCreate] with a password of exactly 8 characters, the least
    length allowed, validates; with a shorter password it is refused. *)
Lemma user_create_password_length (now : Z) (email pw : string) :
  (utf8_length email <= 255)%nat ->
  (utf8_length pw = 8%nat ->
   is_ok (validate_model now UserCreate (user_create_data email pw)) = true) /\
  ((utf8_length pw < 8)%nat ->
   is_ok (validate_model now UserCreate (user_create_data email pw)) = false).
Proof.
  intros He. split.
  - intros Hlen. apply validate_model_ok_iff. intros g Hg. simpl in Hg.
    repeat (destruct Hg as [<-|Hg]; [try reflexivity|]); [| |contradiction].
    + unfold validate_field. cbn [fname annotation info user_create_data lookup String.eqb
                                  Ascii.eqb Bool.eqb validate_type].
      unfold validate_str, check_opt.
      cbn [kw_min_length kw_max_length find_kw bind].
      apply Nat.leb_le in He. rewrite He. reflexivity.
    + unfold validate_field. simpl. unfold validate_str. simpl. rewrite Hlen. reflexivity.
  - intros Hlen.
    apply (validate_model_rejects now UserCreate (user_create_data email pw) "password"
             (fld "password" TStr [Kw.min_length 8; Kw.max_length 100]) (VStr pw)
             eq_refl eq_refl).
    apply validate_str_too_short with (l := 8%nat); [reflexivity | exact Hlen].
Qed.

(** C5.  The e-mail pattern is declared on [User.email] and
    [UserCreate.email] under the keyword [regex], and "not-an-email" does
    not match it.  The keyword is not one the validation layer reads, so
    the pattern is not applied: both classes validate an input whose
    e-mail is "not-an-email" and keep it.  The rest of the scenario holds:
    a [UserCreate] with e-mail "a@b.co" and a password of 8 characters
    validates, and one with a password of 7 characters is refused. *)
Theorem email_pattern_not_applied :
  option_map (fun f => kw_regex (info f)) (get_field User "email") = Some (Some email_re) /\
  option_map (fun f => kw_regex (info f)) (get_field UserCreate "email")
  = Some (Some email_re) /\
  re_match email_re "not-an-email" = false /\
  re_match email_re "a@b.co" = true /\
  validate_model 0 UserCreate (user_create_data "not-an-email" "s3cr3t!!")
  = Ok [("email", VStr "not-an-email"); ("password", VStr "s3cr3t!!");
        ("full_name", VStr "Ani"); ("phone", VNone); ("role", VEnum "UserRole" "buyer")] /\
  is_ok (validate_model 0 User
           [("email", VStr "not-an-email"); ("password_hash", VStr "x1f9");
            ("full_name", VStr "Ani")]) = true /\
  is_ok (validate_model 0 UserCreate (user_create_data "a@b.co" "s3cr3t!!")) = true /\
  is_ok (validate_model 0 UserCreate (user_create_data "a@b.co" "s3cr3t!")) = false.
Proof. repeat split. Qed.

(* ------------------------------------------------------------------ *)
(** ** Unique columns of a table *)

Lemma conflicts_remove_at col v t :
  conflicts col v t = false -> forall i, conflicts col v (remove_at i t) = false.
Proof.
  unfold conflicts. induction t as [|r t IH]; intros H i.
  - destruct i; reflexivity.
  - simpl in H. apply orb_false_iff in H. destruct H as [Hr Ht].
    destruct i; simpl; [exact Ht|].
    rewrite Hr. simpl. now apply IH.
Qed.

Lemma uniq_remove_at col t :
  uniq col t -> forall i, uniq col (remove_at i t).
Proof.
  induction t as [|r t IH]; intros H i.
  - destruct i; exact I.
  - destruct H as [Hr Ht]. destruct i; simpl; [exact Ht|].
    split; [|now apply IH].
    destruct (lookup col r); [now apply conflicts_remove_at | exact I].
Qed.

Lemma insert_uniq m col t r t' :
  In col (unique_columns m) ->
  uniq col t -> insert m t r = Some t' -> uniq col t'.
Proof.
  unfold insert, admissible. intros Hcol Ht H.
  destruct (forallb _ (unique_columns m)) eqn:E; [|discriminate].
  injection H as <-. simpl. split; [|exact Ht].
  rewrite forallb_forall in E. specialize (E col Hcol).
  destruct (lookup col r); [|exact I].
  now apply negb_true_iff in E.
Qed.

Lemma step_uniq m col t t' :
  In col (unique_columns m) -> uniq col t -> step m t t' -> uniq col t'.
Proof.
  intros Hcol Ht Hs. destruct Hs as [t r t' H | t i | t i r t' H].
  - eapply insert_uniq; eassumption.
  - now apply uniq_remove_at.
  - eapply insert_uniq; [exact Hcol | | exact H]. now apply uniq_remove_at.
Qed.

Lemma reachable_uniq m col t :
  In col (unique_columns m) -> reachable m t -> uniq col t.
Proof.
  intros Hcol Hr. induction Hr as [|t t' _ IH Hs].
  - exact I.
  - eapply step_uniq; eassumption.
Qed.

Lemma conflicts_In col v t r v' :
  In r t -> lookup col r = Some v' -> key_eqb v v' = true -> conflicts col v t = true.
Proof.
  intros Hin Hl Hk. unfold conflicts. apply existsb_exists.
  exists r. split; [exact Hin|]. now rewrite Hl.
Qed.

Lemma uniq_nth col t :
  uniq col t ->
  forall i j r1 r2 z,
    nth_error t i = Some r1 -> nth_error t j = Some r2 ->
    lookup col r1 = Some (VInt z) -> lookup col r2 = Some (VInt z) ->
    i = j.
Proof.
  induction t as [|r t IH]; intros H i j r1 r2 z H1 H2 L1 L2.
  - destruct i; discriminate.
  - destruct H as [Hr Ht].
    destruct i as [|i]; destruct j as [|j]; simpl in H1, H2.
    + reflexivity.
    + injection H1 as <-. rewrite L1 in Hr. apply nth_error_In in H2.
      rewrite (conflicts_In col (VInt z) t r2 (VInt z) H2 L2 (Z.eqb_refl z)) in Hr.
      discriminate.
    + injection H2 as <-. rewrite L2 in Hr. apply nth_error_In in H1.
      rewrite (conflicts_In col (VInt z) t r1 (VInt z) H1 L1 (Z.eqb_refl z)) in Hr.
      discriminate.
    + f_equal. eapply IH; eassumption.
Qed.

(** C6.  [Delivery.order_id] is declared unique, so in every state of the
    deliveries table reached by inserts, updates and deletes, two rows that
    reference the same order are the same row, and the insert of a further
    delivery for an order that already has one is refused. *)
Theorem delivery_order_id_unique (t : list row) :
  reachable Delivery t ->
  (forall i j d1 d2 o,
      nth_error t i = Some d1 -> nth_error t j = Some d2 ->
      lookup "order_id" d1 = Some (VInt o) -> lookup "order_id" d2 = Some (VInt o) ->
      i = j) /\
  (forall d r o,
      In d t -> lookup "order_id" d = Some (VInt o) ->
      lookup "order_id" r = Some (VInt o) ->
      insert Delivery t r = None).
Proof.
  intros Hr.
  assert (Hcol : In "order_id" (unique_columns Delivery)) by (right; left; reflexivity).
  split.
  - apply uniq_nth. now apply reachable_uniq with (m := Delivery).
  - intros d r o Hin Hd Hn. unfold insert.
    destruct (admissible Delivery t r) eqn:E; [|reflexivity].
    unfold admissible in E. rewrite forallb_forall in E. specialize (E _ Hcol).
    rewrite Hn in E.
    rewrite (conflicts_In "order_id" (VInt o) t d (VInt o) Hin Hd (Z.eqb_refl o)) in E.
    discriminate.
Qed.

Lemma delivery_order_id_unique_witness :
  insert Delivery [delivery_row 2 11; delivery_row 1 10] (delivery_row 3 10) = None.
Proof.
  assert (Hr : reachable Delivery [delivery_row 2 11; delivery_row 1 10]).
  { apply reach_step with (t := [delivery_row 1 10]).
    - apply reach_step with (t := []); [apply reach_empty|].
      apply step_insert with (r := delivery_row 1 10). reflexivity.
    - apply step_insert with (r := delivery_row 2 11). reflexivity. }
  apply (proj2 (delivery_order_id_unique _ Hr) (delivery_row 1 10) (delivery_row 3 10) 10).
  - right. left. reflexivity.
  - reflexivity.
  - reflexivity.
Defined.

(* ------------------------------------------------------------------ *)
(** ** Identity and timestamps of the entities *)

(** C8, as the specification states it, does not hold: not every entity has
    a created-at timestamp.  [OrderItem] declares no [datetime] field. *)
Lemma order_item_has_no_created_at :
  ~ (forall m, In m persistent_models ->
               has_identity m = true /\ has_timestamp "created_at" m = true).
Proof.
  intros H.
  assert (Hin : In OrderItem persistent_models) by (simpl; tauto).
  destruct (H OrderItem Hin) as [_ Hts]. discriminate Hts.
Qed.

(** C8, as the schema has it.  Every persistent class has the numeric
    identity [id], its only primary key.  All of them except [CartItem] and
    [OrderItem] have a [created_at] timestamp taken from the clock when the
    record is made; [CartItem] has that timestamp under the name
    [added_at]; [OrderItem] has no timestamp field. *)
Theorem entities_identity_and_timestamp (m : Model) :
  In m persistent_models ->
  has_identity m = true /\
  primary_keys m = ["id"] /\
  (cls_name m <> "CartItem" -> cls_name m <> "OrderItem" ->
   has_timestamp "created_at" m = true) /\
  (cls_name m = "CartItem" ->
   has_timestamp "created_at" m = false /\ has_timestamp "added_at" m = true) /\
  (cls_name m = "OrderItem" -> datetime_fields m = []).
Proof.
  intros Hin. simpl in Hin.
  repeat (destruct Hin as [<-|Hin];
          [repeat split; try reflexivity; try discriminate;
           intros; exfalso; auto|]).
  contradiction.
Qed.

Lemma entities_identity_and_timestamp_witness :
  has_identity Order = true /\ has_timestamp "created_at" Order = true.
Proof.
  assert (Hin : In Order persistent_models) by (simpl; tauto).
  pose proof (entities_identity_and_timestamp Order Hin) as (Hid & _ & Hts & _).
  split; [exact Hid|]. apply Hts; discriminate.
Defined.

(* ------------------------------------------------------------------ *)
(** ** Defaults *)

(** C9.  When an [Address] or [AddressCreate] input leaves out [country],
    the validated data have country "Indonesia"; when it leaves out
    [is_default], they have [is_default = False]. *)
Theorem address_defaults (m : Model) (now : Z) (input vals : row) :
  m = Address \/ m = AddressCreate ->
  validate_model now m input = Ok vals ->
  (lookup "country" input = None -> lookup "country" vals = Some (VStr "Indonesia")) /\
  (lookup "is_default" input = None -> lookup "is_default" vals = Some (VBool false)).
Proof.
  intros Hm H. split; intros Hn.
  - eapply validate_model_default; [exact H | | | exact Hn];
      destruct Hm; subst m; reflexivity.
  - eapply validate_model_default; [exact H | | | exact Hn];
      destruct Hm; subst m; reflexivity.
Qed.

Lemma address_defaults_witness :
  exists vals,
    validate_model 0 AddressCreate address_create_data = Ok vals /\
    lookup "country" vals = Some (VStr "Indonesia") /\
    lookup "is_default" vals = Some (VBool false).
Proof.
  eexists. split; [reflexivity|].
  pose proof (address_defaults AddressCreate 0 address_create_data _
                (or_intror eq_refl) eq_refl) as [Hc Hd].
  split; [apply Hc; reflexivity | apply Hd; reflexivity].
Defined.

(** C10.  When a [User] or [UserCreate] input leaves out [role], the
    validated data have the role buyer; when a [User] input leaves out
    [is_active], the validated user is active. *)
Theorem user_defaults (m : Model) (now : Z) (input vals : row) :
  m = User \/ m = UserCreate ->
  validate_model now m input = Ok vals ->
  (lookup "role" input = None -> lookup "role" vals = Some (role UserRole.BUYER)) /\
  (m = User -> lookup "is_active" input = None ->
   lookup "is_active" vals = Some (VBool true)).
Proof.
  intros Hm H. split.
  - intros Hn. eapply validate_model_default; [exact H | | | exact Hn];
      destruct Hm; subst m; reflexivity.
  - intros -> Hn. eapply validate_model_default; [exact H | | | exact Hn]; reflexivity.
Qed.

Lemma user_defaults_witness :
  exists vals,
    validate_model 0 User user_data = Ok vals /\
    lookup "role" vals = Some (VEnum "UserRole" "buyer") /\
    lookup "is_active" vals = Some (VBool true).
Proof.
  eexists. split; [reflexivity|].
  pose proof (user_defaults User 0 user_data _ (or_introl eq_refl) eq_refl) as [Hr Ha].
  split; [apply Hr; reflexivity | apply Ha; reflexivity].
Defined.

(* ------------------------------------------------------------------ *)
(** ** From a Create shape to its entity *)

Lemma lookup_app k (a b : row) :
  lookup k (a ++ b)%list = match lookup k a with Some v => Some v | None => lookup k b end.
Proof.
  induction a as [|[k' v] a IH]; simpl; [reflexivity|].
  destruct (String.eqb k k'); [reflexivity | exact IH].
Qed.

Lemma names_get_field m name :
  In name (names m) -> exists f, get_field m name = Some f.
Proof.
  unfold names, get_field. intros H. apply in_map_iff in H. destruct H as (f & Hn & Hin).
  destruct (find (fun g => String.eqb (fname g) name) (fields m)) as [g|] eqn:E; [eauto|].
  exfalso. apply (find_none _ _ E) in Hin. rewrite Hn, String.eqb_refl in Hin. discriminate.
Qed.

Lemma no_stronger_transfer {A} (P : A -> Prop) (e c : option A) :
  no_stronger e c ->
  (forall l, c = Some l -> P l) -> (forall l, e = Some l -> P l).
Proof. intros [->| ->] H l; [discriminate | apply H]. Qed.

Lemma validate_int_ok kws z :
  (forall l, kw_ge kws = Some l -> l <= z) ->
  (forall l, kw_le kws = Some l -> z <= l) ->
  validate_int kws z = Ok (VInt z).
Proof.
  unfold validate_int, check_opt. intros Hge Hle.
  destruct (kw_ge kws) as [g|].
  - specialize (Hge g eq_refl). apply Z.leb_le in Hge. rewrite Hge. cbn [bind].
    destruct (kw_le kws) as [l|]; [|reflexivity].
    specialize (Hle l eq_refl). apply Z.leb_le in Hle. now rewrite Hle.
  - cbn [bind]. destruct (kw_le kws) as [l|]; [|reflexivity].
    specialize (Hle l eq_refl). apply Z.leb_le in Hle. now rewrite Hle.
Qed.

Lemma validate_str_ok kws s :
  (forall l, kw_max_length kws = Some l -> (utf8_length s <= l)%nat) ->
  (forall l, kw_min_length kws = Some l -> (l <= utf8_length s)%nat) ->
  validate_str kws s = Ok (VStr s).
Proof.
  unfold validate_str, check_opt. intros Hmax Hmin.
  destruct (kw_min_length kws) as [a|];
    [specialize (Hmin a eq_refl); apply Nat.leb_le in Hmin; rewrite Hmin|]; cbn [bind];
    (destruct (kw_max_length kws) as [b|];
     [specialize (Hmax b eq_refl); apply Nat.leb_le in Hmax; rewrite Hmax|]); reflexivity.
Qed.

(** A value that a Create field returned is accepted unchanged by an
    entity field that asks no more. *)
Lemma validate_type_revalidate t kc ke :
  no_stronger (kw_ge ke) (kw_ge kc) ->
  no_stronger (kw_le ke) (kw_le kc) ->
  no_stronger (kw_min_length ke) (kw_min_length kc) ->
  no_stronger (kw_max_length ke) (kw_max_length kc) ->
  kw_max_digits ke = kw_max_digits kc ->
  kw_decimal_places ke = kw_decimal_places kc ->
  forall x v, validate_type t kc x = Ok v -> validate_type t ke v = Ok v.
Proof.
  intros Hge Hle Hmin Hmax Hmd Hdp.
  assert (Hdec : forall d v, validate_decimal kc d = Ok v ->
                             validate_type TDecimal ke v = Ok v).
  { intros d v H. pose proof (validate_decimal_same _ _ _ H) as ->. simpl.
    unfold validate_decimal in *. rewrite Hmd, Hdp. exact H. }
  induction t; intros x v H.
  - apply validate_type_int in H. destruct H as (z & _ & -> & Hg & Hl). simpl.
    apply validate_int_ok.
    + exact (no_stronger_transfer (fun l => l <= z) _ _ Hge Hg).
    + exact (no_stronger_transfer (fun l => z <= l) _ _ Hle Hl).
  - apply validate_type_str in H. destruct H as (s & _ & -> & H1 & H2). simpl.
    apply validate_str_ok.
    + exact (no_stronger_transfer (fun l => (utf8_length s <= l)%nat) _ _ Hmax H1).
    + exact (no_stronger_transfer (fun l => (l <= utf8_length s)%nat) _ _ Hmin H2).
  - destruct x; simpl in H; try discriminate. injection H as <-. reflexivity.
  - apply validate_type_decimal in H. destruct H as [d Hd]. now apply Hdec with d.
  - destruct x; simpl in H; try discriminate. injection H as <-. reflexivity.
  - destruct x; simpl in H; try discriminate.
    + destruct (mem s values) eqn:E; [|discriminate]. injection H as <-.
      simpl. now rewrite String.eqb_refl, E.
    + destruct (String.eqb cls cls0 && mem value values) eqn:E; [|discriminate].
      injection H as <-. apply andb_true_iff in E. destruct E as [_ E].
      simpl. now rewrite String.eqb_refl, E.
  - destruct x; simpl in H; try discriminate.
    destruct (forallb is_str l) eqn:E; [|discriminate]. injection H as <-.
    simpl. now rewrite E.
  - destruct x; simpl in H; try discriminate. injection H as <-. reflexivity.
  - assert (Hv : validate_type t ke v = Ok v -> validate_type (TOptional t) ke v = Ok v)
      by (destruct v; simpl; auto).
    destruct x; simpl in H; try (apply Hv; eapply IHt; exact H).
    injection H as <-. reflexivity.
Qed.

Lemma revalidate_field now now' fc fe input update c v :
  field_compatible fe fc ->
  fname fe = fname fc ->
  validate_field now fc input = Ok v ->
  lookup (fname fc) update = None ->
  lookup (fname fc) c = Some v ->
  validate_field now' fe (update ++ c)%list = Ok v.
Proof.
  intros (Ha & Hge & Hle & Hmin & Hmax & Hre & Hmd & Hdp & Hfac & Hdef) Hn Hv Hu Hc.
  assert (Hre' : validate_type (annotation fe) (info fe) v = Ok v).
  { unfold validate_field in Hv.
    destruct (lookup (fname fc) input) as [x|].
    - destruct (validate_type (annotation fc) (info fc) x) as [v'|] eqn:E; [|discriminate].
      injection Hv as ->. rewrite Ha.
      eapply validate_type_revalidate; eassumption.
    - destruct (kw_default (info fc)) as [d|].
      + injection Hv as ->. now apply Hdef.
      + rewrite Hfac in Hv. discriminate. }
  unfold validate_field. rewrite lookup_app, Hn, Hu, Hc, Hre'. reflexivity.
Qed.

Lemma validate_field_app_unknown now f update c :
  lookup (fname f) c = None ->
  validate_field now f (update ++ c)%list = validate_field now f update.
Proof.
  intros H. unfold validate_field. rewrite lookup_app, H.
  destruct (lookup (fname f) update); reflexivity.
Qed.

Lemma validate_model_keys now m input vals name :
  validate_model now m input = Ok vals ->
  ~ In name (names m) -> lookup name vals = None.
Proof.
  unfold validate_model. intros H.
  destruct (validate_fields now (fields m) input) as [[|e errs] vs] eqn:E; inversion H; subst.
  now apply validate_fields_keys with (now := now) (input := input).
Qed.

(** Every Create shape is compatible with its entity, and every Create
    shape but [UserCreate] (whose [password] the entity does not keep) has
    all of its fields in the entity. *)
Lemma create_pairs_compatible C E :
  In (C, E) create_pairs ->
  compatible C E /\ (C <> UserCreate -> incl (names C) (names E)).
Proof.
  intros H. simpl in H.
  repeat (destruct H as [H|H];
          [injection H as <- <-; split;
           [intros fc Hc fe He Hn; field_cases Hc; field_cases He;
            try discriminate Hn; solve_field_compatible
           |intros Hne name Hin;
            first [exfalso; apply Hne; reflexivity
                  |simpl in Hin |- *; tauto]]
          |]).
  contradiction.
Qed.

(** What a field returns for a value is that value, up to reading a
    decimal or naming an enumeration member. *)
Lemma validate_type_reads_as t kws x v :
  validate_type t kws x = Ok v -> reads_as x v.
Proof.
  unfold reads_as. revert x. induction t; intros x H.
  - apply validate_type_int in H. destruct H as (z & -> & -> & _). now left.
  - apply validate_type_str in H. destruct H as (s & -> & -> & _). now left.
  - destruct x; simpl in H; try discriminate. injection H as <-. now left.
  - destruct x; simpl in H; try discriminate.
    + apply validate_decimal_same in H. right. right. left. eauto.
    + destruct (parse_decimal s) as [d|] eqn:E; [|discriminate].
      apply validate_decimal_same in H. right. left. eauto.
    + apply validate_decimal_same in H. left. congruence.
  - destruct x; simpl in H; try discriminate. injection H as <-. now left.
  - destruct x; simpl in H; try discriminate.
    + destruct (mem s values); [|discriminate]. injection H as <-.
      right. right. right. eauto.
    + destruct (String.eqb cls cls0 && mem value values) eqn:E; [|discriminate].
      injection H as <-. apply andb_true_iff in E. destruct E as [E _].
      apply String.eqb_eq in E. subst. now left.
  - destruct x; simpl in H; try discriminate.
    destruct (forallb is_str l); [|discriminate]. injection H as <-. now left.
  - destruct x; simpl in H; try discriminate. injection H as <-. now left.
  - destruct x; simpl in H; try (now apply IHt).
    injection H as <-. now left.
Qed.

(** C7.  For each Create shape and its entity: take input that the Create
    shape validates, and build the entity from the validated data,
    together with data for the fields the Create shape does not have.  The
    entity validates, and for every field of the Create shape that the
    entity declares, the entity holds a value, the very value the Create
    shape holds: the value the input supplied (a decimal literal read as
    its decimal, an enumeration value as its member), or the declared
    default when the input left the field out.  For every Create shape
    other than [UserCreate], [ProductCreate] among them, the entity
    declares all of the shape's fields. *)
Theorem create_shape_round_trip (C E : Model) (now now' : Z) (input c update : row) :
  In (C, E) create_pairs ->
  validate_model now C input = Ok c ->
  (forall name, In name (names C) -> lookup name update = None) ->
  (forall fe, In fe (fields E) -> ~ In (fname fe) (names C) ->
              is_ok (validate_field now' fe update) = true) ->
  exists e,
    model_validate now' E c update = Ok e /\
    (forall name, In name (names C) -> In name (names E) ->
       exists v,
         lookup name c = Some v /\ lookup name e = Some v /\
         (forall x, lookup name input = Some x -> reads_as x v) /\
         (lookup name input = None ->
          exists fc, get_field C name = Some fc /\ kw_default (info fc) = Some v)) /\
    (C <> UserCreate -> forall name, In name (names C) -> In name (names E)).
Proof.
  intros Hpair Hc Hupd Hrest.
  destruct (create_pairs_compatible _ _ Hpair) as [Hcompat Hincl].
  assert (HB : forall fe, In fe (fields E) -> In (fname fe) (names C) ->
                 exists v, lookup (fname fe) c = Some v /\
                           validate_field now' fe (update ++ c)%list = Ok v /\
                           (forall x, lookup (fname fe) input = Some x -> reads_as x v) /\
                           (lookup (fname fe) input = None ->
                            exists fc, get_field C (fname fe) = Some fc /\
                                       kw_default (info fc) = Some v)).
  { intros fe Hfe Hin.
    destruct (names_get_field _ _ Hin) as [fc Hfc].
    destruct (get_field_In _ _ _ Hfc) as [Hfcin Hname].
    destruct (validate_model_field_ok _ _ _ _ _ Hc Hfcin) as [v Hv].
    assert (Hl : lookup (fname fe) c = Some v).
    { rewrite (validate_model_lookup _ _ _ _ Hc), Hfc, Hv. reflexivity. }
    exists v. split; [exact Hl|]. split; [|split].
    - apply revalidate_field with (now := now) (fc := fc) (input := input).
      + apply Hcompat; auto.
      + auto.
      + exact Hv.
      + apply Hupd. now rewrite Hname.
      + now rewrite Hname.
    - intros x Hx. unfold validate_field in Hv. rewrite Hname, Hx in Hv.
      destruct (validate_type (annotation fc) (info fc) x) as [v'|] eqn:Ex; [|discriminate].
      injection Hv as <-. now apply validate_type_reads_as with (annotation fc) (info fc).
    - intros Hx. exists fc. split; [exact Hfc|].
      unfold validate_field in Hv. rewrite Hname, Hx in Hv.
      destruct (kw_default (info fc)) as [dflt|]; [congruence|].
      destruct (Hcompat fc Hfcin fe Hfe (eq_sym Hname))
        as (_ & _ & _ & _ & _ & _ & _ & _ & Hfac & _).
      rewrite Hfac in Hv. discriminate. }
  assert (HC : is_ok (validate_model now' E (update ++ c)%list) = true).
  { apply validate_model_ok_iff. intros fe Hfe.
    destruct (in_dec string_dec (fname fe) (names C)) as [Hin|Hout].
    - destruct (HB fe Hfe Hin) as (v & _ & -> & _). reflexivity.
    - rewrite validate_field_app_unknown.
      + now apply Hrest.
      + now apply validate_model_keys with (now := now) (m := C) (input := input). }
  apply is_ok_true in HC. destruct HC as [e He].
  exists e. split; [exact He|]. split; [|exact Hincl].
  intros name HnC HnE.
  destruct (names_get_field _ _ HnE) as [fe Hfe].
  destruct (get_field_In _ _ _ Hfe) as [Hfein Hname].
  rewrite <- Hname in HnC. destruct (HB fe Hfein HnC) as (v & Hl & Hv & Hx & Hd).
  rewrite Hname in *.
  exists v. split; [exact Hl|]. split; [|split; assumption].
  rewrite (validate_model_lookup _ _ _ _ He), Hfe, Hv. reflexivity.
Qed.

Lemma create_shape_round_trip_witness :
  exists e,
    model_validate 5 Product product_create_validated [("seller_id", VInt 7)] = Ok e /\
    lookup "price" e = Some (VDecimal (mkDecimal false 9999 (-2))) /\
    lookup "name" e = Some (VStr "Kettle").
Proof.
  destruct (create_shape_round_trip ProductCreate Product 0 5 (product_data "99.99")
              product_create_validated [("seller_id", VInt 7)]) as (e & He & Hall & _).
  - simpl. tauto.
  - reflexivity.
  - intros name Hin. field_cases Hin; reflexivity.
  - intros fe Hin Hout. field_cases Hin; try reflexivity;
      exfalso; apply Hout; simpl; tauto.
  - exists e. split; [exact He|]. split.
    + destruct (Hall "price") as (v & Hc & -> & _);
        [unfold names; simpl; tauto | unfold names; simpl; tauto |].
      rewrite <- Hc. reflexivity.
    + destruct (Hall "name") as (v & Hc & -> & _);
        [unfold names; simpl; tauto | unfold names; simpl; tauto |].
      rewrite <- Hc. reflexivity.
Defined.

(** [UserCreate.password] is the one Create field with no counterpart in
    its entity: [User] keeps a [password_hash] instead. *)
Lemma user_create_password_not_kept :
  get_field User "password" = None /\
  filter (fun name => negb (mem name (names User))) (names UserCreate) = ["password"].
Proof. split; reflexivity. Qed.

(* ------------------------------------------------------------------ *)
(** ** Validated data satisfy the declarations *)

(** In every class of the schema a field is found under its own name,
    its declared default is a value the field itself accepts, and so is
    what its default factory returns. *)
Lemma schema_fields m f :
  In m all_models -> In f (fields m) ->
  get_field m (fname f) = Some f /\
  (forall d, kw_default (info f) = Some d ->
             validate_type (annotation f) (info f) d = Ok d) /\
  (forall g now, kw_default (info f) = None -> kw_default_factory (info f) = Some g ->
                 validate_type (annotation f) (info f) (run_factory now g)
                 = Ok (run_factory now g)).
Proof.
  intros Hm Hf.
  model_cases Hm; field_cases Hf;
    (split; [reflexivity|]; split;
     [intros d Hd; try discriminate Hd; injection Hd as <-; reflexivity
     |intros g now Hd Hg; try discriminate Hd; try discriminate Hg;
      destruct g; reflexivity]).
Qed.

Lemma no_stronger_refl {A} (x : option A) : no_stronger x x.
Proof. right. reflexivity. Qed.

Lemma validate_type_idempotent t kws x v :
  validate_type t kws x = Ok v -> validate_type t kws v = Ok v.
Proof.
  apply validate_type_revalidate; try apply no_stronger_refl; reflexivity.
Qed.

(** What a class stores under a field is a value that field accepts
    unchanged. *)
Lemma stored_value_valid m now input vals f :
  In m all_models ->
  validate_model now m input = Ok vals ->
  In f (fields m) ->
  exists v, validate_field now f input = Ok v /\
            lookup (fname f) vals = Some v /\
            validate_type (annotation f) (info f) v = Ok v.
Proof.
  intros Hm H Hf.
  destruct (schema_fields _ _ Hm Hf) as (Hget & Hdef & Hfac).
  destruct (validate_model_field_ok _ _ _ _ _ H Hf) as [v Hv].
  exists v. split; [exact Hv|]. split.
  - rewrite (validate_model_lookup _ _ _ _ H), Hget, Hv. reflexivity.
  - unfold validate_field in Hv.
    destruct (lookup (fname f) input) as [x|].
    + destruct (validate_type (annotation f) (info f) x) as [v'|] eqn:E; [|discriminate].
      injection Hv as ->. now apply validate_type_idempotent with x.
    + destruct (kw_default (info f)) as [d|] eqn:Ed.
      * injection Hv as ->. now apply Hdef.
      * destruct (kw_default_factory (info f)) as [g|] eqn:Eg; [|discriminate].
        injection Hv as <-. now apply Hfac.
Qed.

Lemma validate_fields_ext now now' fs input input' vals :
  validate_fields now fs input = ([], vals) ->
  (forall f, In f fs -> validate_field now' f input' = validate_field now f input) ->
  validate_fields now' fs input' = ([], vals).
Proof.
  revert vals. induction fs as [|f fs IH]; simpl; intros vals H Hext; [exact H|].
  rewrite (Hext f (or_introl eq_refl)).
  destruct (validate_fields now fs input) as [errs vs] eqn:E.
  destruct (validate_field now f input) as [v|e]; inversion H; subst.
  rewrite (IH vs eq_refl); [reflexivity|].
  intros g Hg. apply Hext. now right.
Qed.

(** X1.  Validation is idempotent on every class of the schema: data that
    a class returned validate again, at any later time, to the same data. *)
Theorem validation_idempotent (m : Model) (now now' : Z) (input vals : row) :
  In m all_models ->
  validate_model now m input = Ok vals ->
  validate_model now' m vals = Ok vals.
Proof.
  intros Hm H. unfold validate_model in *.
  destruct (validate_fields now (fields m) input) as [[|e errs] vs] eqn:E;
    inversion H; subst.
  rewrite (validate_fields_ext now now' (fields m) input vals vals E); [reflexivity|].
  intros f Hf.
  assert (H' : validate_model now m input = Ok vals)
    by (unfold validate_model; now rewrite E).
  destruct (stored_value_valid _ _ _ _ _ Hm H' Hf) as (v & Hv & Hl & Hok).
  rewrite Hv. unfold validate_field. now rewrite Hl, Hok.
Qed.

Lemma validation_idempotent_witness :
  validate_model 9 Product
    [("id", VNone); ("seller_id", VInt 7); ("category_id", VInt 3);
     ("name", VStr "Kettle"); ("description", VStr "Steel kettle");
     ("price", VDecimal (mkDecimal false 9999 (-2))); ("original_price", VNone);
     ("stock_quantity", VInt 0); ("min_order_quantity", VInt 1);
     ("weight_kg", VDecimal (mkDecimal false 1250 (-3)));
     ("dimensions", VDict []); ("images", VList []); ("specifications", VDict []);
     ("tags", VList []); ("is_active", VBool true); ("is_featured", VBool false);
     ("rating", VDecimal (mkDecimal false 0 (-1))); ("total_reviews", VInt 0);
     ("total_sold", VInt 0); ("created_at", VDatetime 4); ("updated_at", VDatetime 4)]
  = Ok
    [("id", VNone); ("seller_id", VInt 7); ("category_id", VInt 3);
     ("name", VStr "Kettle"); ("description", VStr "Steel kettle");
     ("price", VDecimal (mkDecimal false 9999 (-2))); ("original_price", VNone);
     ("stock_quantity", VInt 0); ("min_order_quantity", VInt 1);
     ("weight_kg", VDecimal (mkDecimal false 1250 (-3)));
     ("dimensions", VDict []); ("images", VList []); ("specifications", VDict []);
     ("tags", VList []); ("is_active", VBool true); ("is_featured", VBool false);
     ("rating", VDecimal (mkDecimal false 0 (-1))); ("total_reviews", VInt 0);
     ("total_sold", VInt 0); ("created_at", VDatetime 4); ("updated_at", VDatetime 4)].
Proof.
  apply (validation_idempotent Product 4 9 (product_data "99.99")).
  - unfold all_models. simpl. tauto.
  - reflexivity.
Defined.




Lemma validate_type_str_opt t kws x v :
  is_string t = true ->
  validate_type t kws x = Ok v ->
  v = VNone \/
  exists s, v = VStr s /\
            (forall l, kw_max_length kws = Some l -> (utf8_length s <= l)%nat) /\
            (forall l, kw_min_length kws = Some l -> (l <= utf8_length s)%nat).
Proof.
  unfold is_string. induction t; simpl; intros Ht H; try discriminate.
  - right. apply validate_type_str in H. destruct H as (s & _ & -> & H1 & H2).
    exists s. auto.
  - destruct x; try (now apply IHt).
    injection H as <-. now left.
Qed.

(** X3.  In validated data of any class of the schema, a string field
    holds either nothing (an [Optional] field) or a string whose number
    of characters is within the declared [max_length] and [min_length];
    this covers the declared defaults too. *)
Theorem stored_strings_within_bounds
  (m : Model) (now : Z) (input vals : row) (f : ModelField) :
  In m all_models ->
  validate_model now m input = Ok vals ->
  In f (fields m) ->
  is_string (annotation f) = true ->
  exists v, lookup (fname f) vals = Some v /\
            (v = VNone \/
             exists s, v = VStr s /\
               (forall l, kw_max_length (info f) = Some l -> (utf8_length s <= l)%nat) /\
               (forall l, kw_min_length (info f) = Some l -> (l <= utf8_length s)%nat)).
Proof.
  intros Hm H Hf Hs.
  destruct (stored_value_valid _ _ _ _ _ Hm H Hf) as (v & _ & Hl & Hok).
  exists v. split; [exact Hl|]. now apply validate_type_str_opt with (annotation f) v.
Qed.

Lemma stored_strings_within_bounds_witness :
  exists v, lookup "payment_status"
              (match validate_model 0 Order order_data with Ok vals => vals | Err _ => [] end)
            = Some v /\
            (v = VNone \/
             exists s, v = VStr s /\
               (forall l, Some 20%nat = Some l -> (utf8_length s <= l)%nat) /\
               (forall l, @None nat = Some l -> (l <= utf8_length s)%nat)).
Proof.
  apply (stored_strings_within_bounds Order 0 order_data _
           (fld "payment_status" TStr [Kw.default (VStr "pending"); Kw.max_length 20])).
  - unfold all_models. simpl. tauto.
  - reflexivity.
  - simpl. tauto.
  - reflexivity.
Defined.

Lemma validate_type_none t kws v :
  validate_type t kws VNone = Ok v -> exists t', t = TOptional t'.
Proof. destruct t; simpl; try discriminate; eauto. Qed.

(** X4.  In validated data of any class of the schema only a field
    annotated [Optional[...]] holds [None]: no other field declares a
    [None] default, and none accepts [None] from the input. *)
Theorem none_only_in_optional_fields
  (m : Model) (now : Z) (input vals : row) (f : ModelField) :
  In m all_models ->
  validate_model now m input = Ok vals ->
  In f (fields m) ->
  lookup (fname f) vals = Some VNone ->
  exists t, annotation f = TOptional t.
Proof.
  intros Hm H Hf Hn.
  destruct (stored_value_valid _ _ _ _ _ Hm H Hf) as (v & _ & Hl & Hok).
  rewrite Hn in Hl. injection Hl as <-. now apply validate_type_none with (info f) VNone.
Qed.

Lemma none_only_in_optional_fields_witness :
  exists t, TOptional TStr = TOptional t.
Proof.
  apply (none_only_in_optional_fields Order 0 order_data
           (match validate_model 0 Order order_data with Ok vals => vals | Err _ => [] end)
           (fld "notes" (TOptional TStr) [Kw.default VNone; Kw.max_length 500])).
  - unfold all_models. simpl. tauto.
  - reflexivity.
  - simpl. tauto.
  - reflexivity.
Defined.

Lemma validate_type_enum cls values kws x v :
  validate_type (TEnum cls values) kws x = Ok v ->
  exists a, v = VEnum cls a /\ In a values.
Proof.
  assert (Hmem : forall a, mem a values = true -> In a values).
  { intros a Ha. unfold mem in Ha. apply existsb_exists in Ha.
    destruct Ha as (b & Hb & E). apply String.eqb_eq in E. now subst. }
  destruct x; simpl; try discriminate.
  - destruct (mem s values) eqn:E; [|discriminate]. intros [= <-]. eauto.
  - destruct (String.eqb cls cls0 && mem value values) eqn:E; [|discriminate].
    apply andb_true_iff in E. destruct E as [_ E]. intros [= <-]. eauto.
Qed.

(** X5.  In validated data of any class of the schema, an enumeration
    field ([role], [status]) holds a member of its own enumeration, named
    by one of the declared values. *)
Theorem stored_enum_is_member
  (m : Model) (now : Z) (input vals : row) (f : ModelField) (cls : string)
  (values : list string) :
  In m all_models ->
  validate_model now m input = Ok vals ->
  In f (fields m) ->
  annotation f = TEnum cls values ->
  exists a, lookup (fname f) vals = Some (VEnum cls a) /\ In a values.
Proof.
  intros Hm H Hf Ha.
  destruct (stored_value_valid _ _ _ _ _ Hm H Hf) as (v & _ & Hl & Hok).
  rewrite Ha in Hok. apply validate_type_enum in Hok. destruct Hok as (a & -> & Hin).
  exists a. auto.
Qed.

Lemma stored_enum_is_member_witness :
  exists a, lookup "status"
              (match validate_model 0 Order (("status", VStr "shipped") :: order_data) with
               | Ok vals => vals | Err _ => [] end)
            = Some (VEnum "OrderStatus" a) /\
            In a (map OrderStatus.value OrderStatus.members).
Proof.
  apply (stored_enum_is_member Order 0 (("status", VStr "shipped") :: order_data) _
           (fld "status" OrderStatus_t [Kw.default (order_status OrderStatus.PENDING)])).
  - unfold all_models. simpl. tauto.
  - reflexivity.
  - simpl. tauto.
  - reflexivity.
Defined.

(** X6.  Members and values of the three enumerations correspond one to
    one: looking a value up gives the member with that value and no other,
    so distinct members never share a value. *)
Theorem enum_value_round_trip
  (r : UserRole.t) (o : OrderStatus.t) (d : DeliveryStatus.t) (s : string) :
  (UserRole_of_value s = Some r <-> UserRole.value r = s) /\
  (OrderStatus_of_value s = Some o <-> OrderStatus.value o = s) /\
  (DeliveryStatus_of_value s = Some d <-> DeliveryStatus.value d = s).
Proof.
  repeat split.
  - intros H. apply find_some in H. now apply String.eqb_eq.
  - intros <-. destruct r; reflexivity.
  - intros H. apply find_some in H. now apply String.eqb_eq.
  - intros <-. destruct o; reflexivity.
  - intros H. apply find_some in H. now apply String.eqb_eq.
  - intros <-. destruct d; reflexivity.
Qed.

(* ------------------------------------------------------------------ *)
(** ** Keys, columns and what request shapes leave out *)

(** X7.  Every foreign key of a persistent class resolves: its target
    names the table of a persistent class of the schema and the column
    [id] of that class, its primary key, and both ends are integers. *)
Theorem foreign_keys_resolve (m : Model) (f : ModelField) (target : string) :
  In m persistent_models ->
  In f (fields m) ->
  kw_foreign_key (info f) = Some target ->
  exists m' f',
    resolve_foreign_key target = Some (m', f') /\
    In m' persistent_models /\
    fname f' = "id" /\ kw_primary_key (info f') = true /\
    base_type (annotation f) = TInt /\ base_type (annotation f') = TInt.
Proof.
  intros Hm Hf Ht.
  entity_cases Hm; field_cases Hf; try discriminate Ht; injection Ht as <-;
    (eexists; eexists; split; [vm_compute; reflexivity|];
     split; [unfold persistent_models; find_in_list|];
     repeat split).
Qed.

Lemma foreign_keys_resolve_witness :
  exists m' f',
    resolve_foreign_key "categories.id" = Some (m', f') /\
    In m' persistent_models /\
    fname f' = "id" /\ kw_primary_key (info f') = true /\
    base_type (TOptional TInt) = TInt /\ base_type (annotation f') = TInt.
Proof.
  apply (foreign_keys_resolve Category
           (fld "parent_id" (TOptional TInt) [Kw.default VNone; Kw.foreign_key "categories.id"])).
  - unfold persistent_models. find_in_list.
  - simpl. tauto.
  - reflexivity.
Defined.

(** X8.  In the persistent classes the JSON columns are exactly the
    dictionary and list fields; the transient shapes declare no column. *)
Theorem json_columns_are_the_containers (m : Model) (f : ModelField) :
  In m all_models ->
  In f (fields m) ->
  kw_sa_column_JSON (info f) = table m && is_json (annotation f).
Proof.
  intros Hm Hf. model_cases Hm; field_cases Hf; reflexivity.
Qed.

Lemma json_columns_are_the_containers_witness :
  kw_sa_column_JSON [Kw.default (VDict []); Kw.sa_column_JSON] = true && is_json TDictStrAny.
Proof.
  apply (json_columns_are_the_containers Delivery
           (fld "komerce_response" TDictStrAny [Kw.default (VDict []); Kw.sa_column_JSON])).
  - unfold all_models. simpl. tauto.
  - simpl. tauto.
Defined.

Lemma mem_false_not_In a l : mem a l = false -> ~ In a l.
Proof.
  unfold mem. intros H Hin.
  assert (E : existsb (String.eqb a) l = true)
    by (apply existsb_exists; exists a; split; [exact Hin | apply String.eqb_refl]).
  congruence.
Qed.

(** X9.  Validated data of a Create or Update shape never hold a field
    that its entity declares as server-controlled: the primary key, a
    foreign key to [users.id] (the owner of the record) or a field filled
    by a default factory (the timestamps), whatever the input supplies
    under those names. *)
Theorem request_data_has_no_server_fields
  (S E : Model) (now : Z) (input vals : row) (name : string) :
  In (S, E) request_pairs ->
  validate_model now S input = Ok vals ->
  In name (server_controlled E) ->
  lookup name vals = None.
Proof.
  intros Hp H Hn.
  apply (validate_model_keys _ _ _ _ _ H).
  apply mem_false_not_In.
  assert (Hall : forallb (fun '(S', E') =>
                   forallb (fun n => negb (mem n (names S'))) (server_controlled E'))
                   request_pairs = true) by (vm_compute; reflexivity).
  rewrite forallb_forall in Hall. specialize (Hall (S, E) Hp). cbn beta iota in Hall.
  rewrite forallb_forall in Hall. specialize (Hall name Hn).
  now apply negb_true_iff in Hall.
Qed.

Lemma request_data_has_no_server_fields_witness :
  lookup "seller_id"
    (match validate_model 0 ProductCreate (product_data "99.99") with
     | Ok vals => vals | Err _ => [] end) = None.
Proof.
  apply (request_data_has_no_server_fields ProductCreate Product 0 (product_data "99.99")).
  - unfold request_pairs, create_pairs. simpl. tauto.
  - reflexivity.
  - unfold server_controlled. simpl. tauto.
Defined.

(* ------------------------------------------------------------------ *)
(** ** Update shapes *)

Lemma validate_fields_errs_In now fs input e :
  In e (fst (validate_fields now fs input)) ->
  exists f, In f fs /\ validate_field now f input = Err e.
Proof.
  induction fs as [|f fs IH]; simpl; [intros []|].
  destruct (validate_fields now fs input) as [errs vs]; simpl in *.
  destruct (validate_field now f input) as [v|e'] eqn:Ef; simpl.
  - intros H. destruct (IH H) as (g & Hg & Hge). eauto.
  - intros [<-|H]; [eauto|]. destruct (IH H) as (g & Hg & Hge). eauto.
Qed.

Lemma check_opt_not_missing {A} (limit : option A) ok e k :
  (forall l, e l <> missing) -> check_opt limit ok e = Err k -> k <> missing.
Proof.
  unfold check_opt. intros He. destruct limit as [l|]; [|discriminate].
  destruct (ok l); [discriminate|]. intros [= <-]. apply He.
Qed.

Lemma bind_err {A B} (r : result ErrorKind A) (k : A -> result ErrorKind B) e :
  bind r k = Err e -> r = Err e \/ exists a, r = Ok a /\ k a = Err e.
Proof.
  destruct r as [a|e']; simpl; intros H.
  - right. exists a. split; [reflexivity | exact H].
  - left. injection H as ->. reflexivity.
Qed.

Lemma validate_decimal_not_missing kws d k :
  validate_decimal kws d = Err k -> k <> missing.
Proof.
  unfold validate_decimal. destruct (decimal_digits d) as [digits decimals].
  destruct (decimal_digits (normalized d)) as [ndigs ndecs]. intros H.
  apply bind_err in H. destruct H as [H|(_ & _ & H)];
    [eapply check_opt_not_missing; [|exact H]; discriminate|].
  apply bind_err in H. destruct H as [H|(_ & _ & H)];
    [eapply check_opt_not_missing; [|exact H]; discriminate|].
  apply bind_err in H. destruct H as [H|(_ & _ & H)]; [|discriminate].
  destruct (kw_max_digits kws); [|discriminate].
  destruct (kw_decimal_places kws); [|discriminate].
  destruct (_ || _); [discriminate|]. injection H as <-. discriminate.
Qed.

(** The type and constraint checks never answer "missing". *)
Lemma validate_type_not_missing t kws x k :
  validate_type t kws x = Err k -> k <> missing.
Proof.
  revert x. induction t; intros x H; destruct x; simpl in H;
    try (injection H as <-; discriminate); try discriminate; try (eapply IHt; exact H).
  - unfold validate_int in H.
    apply bind_err in H. destruct H as [H|(_ & _ & H)];
      [eapply check_opt_not_missing; [|exact H]; discriminate|].
    apply bind_err in H. destruct H as [H|(_ & _ & H)]; [|discriminate].
    eapply check_opt_not_missing; [|exact H]; discriminate.
  - unfold validate_str in H.
    apply bind_err in H. destruct H as [H|(_ & _ & H)];
      [eapply check_opt_not_missing; [|exact H]; discriminate|].
    apply bind_err in H. destruct H as [H|(_ & _ & H)]; [|discriminate].
    eapply check_opt_not_missing; [|exact H]; discriminate.
  - now apply validate_decimal_not_missing in H.
  - destruct (parse_decimal s); [now apply validate_decimal_not_missing in H|].
    injection H as <-. discriminate.
  - now apply validate_decimal_not_missing in H.
  - destruct (mem s values); [discriminate|]. injection H as <-. discriminate.
  - destruct (String.eqb cls cls0 && mem value values); [discriminate|].
    injection H as <-. discriminate.
  - destruct (forallb is_str l); [discriminate|]. injection H as <-. discriminate.
Qed.

(** A field is reported missing only when the input leaves it out and the
    declaration gives neither a default nor a default factory. *)
Lemma missing_only_when_required now f input e :
  validate_field now f input = Err e ->
  kind e = missing ->
  lookup (fname f) input = None /\
  kw_default (info f) = None /\ kw_default_factory (info f) = None.
Proof.
  unfold validate_field. intros H Hk.
  destruct (lookup (fname f) input) as [x|].
  - destruct (validate_type (annotation f) (info f) x) as [v|k] eqn:E; [discriminate|].
    injection H as <-. simpl in Hk. subst k.
    now apply validate_type_not_missing in E.
  - destruct (kw_default (info f)); [discriminate|].
    destruct (kw_default_factory (info f)); [discriminate|]. auto.
Qed.

(** X10.  [UserUpdate] and [ProductUpdate] ask for no field: a field the
    input leaves out is stored as [None], validation never reports a
    field missing, and the empty input validates. *)
Theorem update_shapes_accept_omission (m : Model) (now : Z) (input : row) :
  m = UserUpdate \/ m = ProductUpdate ->
  (forall vals name,
      validate_model now m input = Ok vals ->
      In name (names m) -> lookup name input = None ->
      lookup name vals = Some VNone) /\
  (forall errs e,
      validate_model now m input = Err errs -> In e errs -> kind e <> missing) /\
  is_ok (validate_model now m []) = true.
Proof.
  intros Hm.
  assert (Hdef : forall f, In f (fields m) ->
                           get_field m (fname f) = Some f /\
                           kw_default (info f) = Some VNone)
    by (intros f Hf; destruct Hm; subst m; field_cases Hf; split; reflexivity).
  split; [|split].
  - intros vals name H Hn Hnone.
    apply in_map_iff in Hn. destruct Hn as (f & <- & Hf).
    destruct (Hdef f Hf) as [Hget Hd].
    now apply validate_model_default with (now := now) (m := m) (input := input) (f := f).
  - intros errs e H Hin Hk. unfold validate_model in H.
    destruct (validate_fields now (fields m) input) as [[|e0 es] vs] eqn:E; inversion H; subst.
    assert (Hin' : In e (fst (validate_fields now (fields m) input))) by now rewrite E.
    apply validate_fields_errs_In in Hin'. destruct Hin' as (f & Hf & Hfe).
    destruct (missing_only_when_required _ _ _ _ Hfe Hk) as (_ & Hnd & _).
    destruct (Hdef f Hf) as [_ Hd]. congruence.
  - destruct Hm; subst m; reflexivity.
Qed.

Lemma update_shapes_accept_omission_witness :
  lookup "price"
    (match validate_model 0 ProductUpdate [("name", VStr "Teapot")] with
     | Ok vals => vals | Err _ => [] end) = Some VNone.
Proof.
  apply (proj1 (update_shapes_accept_omission ProductUpdate 0 [("name", VStr "Teapot")]
                  (or_intror eq_refl))).
  - reflexivity.
  - simpl. tauto.
  - reflexivity.
Defined.

Lemma validate_type_optional_strip t kws v :
  validate_type (TOptional t) kws v = Ok v -> v <> VNone ->
  validate_type t kws v = Ok v.
Proof. destruct v; simpl; auto; congruence. Qed.

(** Every field of an Update shape has a field of the same name in its
    entity, of the same annotation up to [Optional], which asks no more. *)
Lemma update_pairs_compatible U E fu :
  In (U, E) update_pairs -> In fu (fields U) ->
  exists fe,
    get_field E (fname fu) = Some fe /\
    (annotation fu = annotation fe \/ annotation fu = TOptional (annotation fe)) /\
    no_stronger (kw_ge (info fe)) (kw_ge (info fu)) /\
    no_stronger (kw_le (info fe)) (kw_le (info fu)) /\
    no_stronger (kw_min_length (info fe)) (kw_min_length (info fu)) /\
    no_stronger (kw_max_length (info fe)) (kw_max_length (info fu)) /\
    no_stronger (kw_regex (info fe)) (kw_regex (info fu)) /\
    kw_max_digits (info fe) = kw_max_digits (info fu) /\
    kw_decimal_places (info fe) = kw_decimal_places (info fu).
Proof.
  intros H Hf. simpl in H.
  repeat (destruct H as [H|H];
          [injection H as <- <-; field_cases Hf;
           (eexists; split; [reflexivity|]; split;
            [first [left; reflexivity | right; reflexivity]|];
            repeat split; first [left; reflexivity | right; reflexivity | reflexivity])
          |]).
  contradiction.
Qed.

(** X11.  A value that an Update shape returns for a field, [None] apart,
    is a value the field of the same name in its entity accepts unchanged:
    writing it into the entity keeps the entity within its declarations. *)
Theorem update_values_fit_entity
  (U E : Model) (now : Z) (input u : row) (name : string) (v : pyval) :
  In (U, E) update_pairs ->
  validate_model now U input = Ok u ->
  lookup name u = Some v ->
  v <> VNone ->
  exists fe, get_field E name = Some fe /\
             validate_type (annotation fe) (info fe) v = Ok v.
Proof.
  intros Hp H Hl Hv.
  assert (HU : In U all_models)
    by (simpl in Hp; unfold all_models, persistent_models, transient_models;
        repeat (destruct Hp as [Hp|Hp]; [injection Hp as <- <-; simpl; tauto|]);
        contradiction).
  destruct (in_dec string_dec name (names U)) as [Hin|Hout].
  2: { rewrite (validate_model_keys _ _ _ _ _ H Hout) in Hl. discriminate. }
  apply in_map_iff in Hin. destruct Hin as (fu & <- & Hfu).
  destruct (stored_value_valid _ _ _ _ _ HU H Hfu) as (v' & _ & Hl' & Hok).
  rewrite Hl in Hl'. injection Hl' as <-.
  destruct (update_pairs_compatible _ _ _ Hp Hfu)
    as (fe & Hget & Ha & Hge & Hle & Hmin & Hmax & Hre & Hmd & Hdp).
  exists fe. split; [exact Hget|].
  apply validate_type_revalidate with (kc := info fu) (x := v); try assumption.
  destruct Ha as [Ha|Ha]; rewrite Ha in Hok; [exact Hok|].
  now apply validate_type_optional_strip.
Qed.

Lemma update_values_fit_entity_witness :
  exists fe, get_field Product "price" = Some fe /\
             validate_type (annotation fe) (info fe) (VDecimal (mkDecimal false 12550 (-2)))
             = Ok (VDecimal (mkDecimal false 12550 (-2))).
Proof.
  apply (update_values_fit_entity ProductUpdate Product 0 [("price", VStr "125.50")]
           (match validate_model 0 ProductUpdate [("price", VStr "125.50")] with
            | Ok vals => vals | Err _ => [] end)).
  - simpl. tauto.
  - reflexivity.
  - reflexivity.
  - discriminate.
Defined.

(* ------------------------------------------------------------------ *)
(** ** Characters of an accepted e-mail address *)

Lemma single_char_matches r s :
  single_char r = true -> matches r s ->
  exists c, s = String c "" /\ accepts1 r c = true.
Proof.
  intros Hs Hm.
  assert (Hc : exists c, s = String c "").
  { revert s Hm. induction r; simpl in Hs; try discriminate; intros s Hm;
      inversion Hm; subst; eauto;
      apply andb_true_iff in Hs; destruct Hs; auto. }
  destruct Hc as [c ->]. exists c. split; [reflexivity|].
  apply matches_re_match in Hm. exact Hm.
Qed.

Lemma star_forall r s0 :
  single_char r = true -> matches (Star r) s0 ->
  string_forall (accepts1 r) s0 = true.
Proof.
  intros Hs Hm. remember (Star r) as r' eqn:E.
  induction Hm; try discriminate; injection E as ->; [reflexivity|].
  destruct (single_char_matches _ _ Hs Hm1) as (c & -> & Hc).
  simpl. rewrite Hc. simpl. now apply IHHm2.
Qed.

Lemma plus_forall r s :
  single_char r = true -> matches (plus r) s ->
  string_forall (accepts1 r) s = true /\ (1 <= String.length s)%nat.
Proof.
  unfold plus. intros Hs Hm. inversion Hm as [| | | | | ? ? s1 s2 H1 H2 | |]; subst.
  destruct (single_char_matches _ _ Hs H1) as (c & -> & Hc).
  simpl. rewrite Hc. simpl. split; [now apply star_forall | lia].
Qed.

Lemma string_forall_app P s1 s2 :
  string_forall P (s1 ++ s2) = string_forall P s1 && string_forall P s2.
Proof.
  induction s1 as [|a s1 IH]; simpl; [reflexivity|].
  now rewrite IH, andb_assoc.
Qed.

Lemma string_forall_impl (P Q : ascii -> bool) s :
  (forall c, P c = true -> Q c = true) ->
  string_forall P s = true -> string_forall Q s = true.
Proof.
  intros HPQ. induction s as [|a s IH]; simpl; [reflexivity|].
  intros H. apply andb_true_iff in H. destruct H as [Ha Hs].
  now rewrite (HPQ a Ha), IH.
Qed.

Lemma count_char_app c s1 s2 :
  count_char c (s1 ++ s2) = (count_char c s1 + count_char c s2)%nat.
Proof.
  induction s1 as [|a s1 IH]; simpl; [reflexivity|]. rewrite IH. lia.
Qed.

Lemma count_char_absent c s :
  string_forall (fun a => negb (Ascii.eqb a c)) s = true -> count_char c s = O.
Proof.
  induction s as [|a s IH]; simpl; [reflexivity|].
  intros H. apply andb_true_iff in H. destruct H as [Ha Hs].
  apply negb_true_iff in Ha. rewrite Ha, (IH Hs). reflexivity.
Qed.

Lemma append_assoc_string (s1 s2 s3 : string) : (s1 ++ s2) ++ s3 = s1 ++ (s2 ++ s3).
Proof. induction s1 as [|a s1 IH]; simpl; [reflexivity | now rewrite IH]. Qed.

Lemma length_app_string (s1 s2 : string) :
  String.length (s1 ++ s2) = (String.length s1 + String.length s2)%nat.
Proof. induction s1 as [|a s1 IH]; simpl; [reflexivity | now rewrite IH]. Qed.

(** The three bracket classes of the pattern take letters, digits and
    [_ . + -] only; none of them takes [@]. *)
Lemma email_classes_chars c :
  accepts1 email_local c || accepts1 email_domain c || accepts1 email_tld c = true ->
  email_part_char c = true /\ Ascii.eqb c "@" = false.
Proof.
  destruct c as [[] [] [] [] [] [] [] []]; vm_compute; intros H;
    first [discriminate H | split; reflexivity].
Qed.

Lemma email_part_forall r s :
  (forall c, accepts1 r c = true ->
             accepts1 email_local c || accepts1 email_domain c || accepts1 email_tld c = true) ->
  string_forall (accepts1 r) s = true ->
  string_forall email_part_char s = true /\ count_char "@" s = O.
Proof.
  intros Hr H. split.
  - apply string_forall_impl with (P := accepts1 r); [|exact H].
    intros c Hc. now apply email_classes_chars, Hr.
  - apply count_char_absent. apply string_forall_impl with (P := accepts1 r); [|exact H].
    intros c Hc. destruct (email_classes_chars c (Hr c Hc)) as [_ ->]. reflexivity.
Qed.

(** X12.  A string the e-mail pattern accepts is a body followed by at
    most a closing newline; the body has exactly one [@], at least five
    characters, and apart from the [@] only letters, digits and the
    characters [_ . + -] (so no space and no second [@]). *)
Theorem accepted_email_characters (e : string) :
  re_match email_re e = true ->
  exists body tail,
    e = body ++ tail /\
    (tail = "" \/ tail = String newline "") /\
    count_char "@" body = 1%nat /\
    (5 <= String.length body)%nat /\
    string_forall (fun c => email_part_char c || Ascii.eqb c "@") body = true.
Proof.
  intros H. apply email_re_shape in H.
  destruct H as (l & d & t & nl & -> & Hl & Hd & Ht & Hnl).
  apply plus_forall in Hl; [|reflexivity]. destruct Hl as [Hl Hll].
  apply plus_forall in Hd; [|reflexivity]. destruct Hd as [Hd Hdl].
  apply plus_forall in Ht; [|reflexivity]. destruct Ht as [Ht Htl].
  apply email_part_forall in Hl; [|intros c ->; reflexivity]. destruct Hl as [Hlc Hl0].
  apply email_part_forall in Hd;
    [|intros c ->; rewrite orb_true_r; reflexivity]. destruct Hd as [Hdc Hd0].
  apply email_part_forall in Ht; [|intros c ->; apply orb_true_r]. destruct Ht as [Htc Ht0].
  assert (Hor : forall s, string_forall email_part_char s = true ->
                          string_forall (fun c => email_part_char c || Ascii.eqb c "@") s = true).
  { intros s. apply string_forall_impl. intros c ->. reflexivity. }
  exists (l ++ "@" ++ d ++ "." ++ t), nl. split; [|split; [exact Hnl|split; [|split]]].
  - rewrite !append_assoc_string. reflexivity.
  - rewrite !count_char_app, Hl0, Hd0, Ht0. reflexivity.
  - rewrite !length_app_string. simpl. lia.
  - rewrite !string_forall_app, (Hor _ Hlc), (Hor _ Hdc), (Hor _ Htc). reflexivity.
Qed.

Lemma accepted_email_characters_witness :
  exists body tail,
    "ani.w+shop@toko-kita.co.id" = body ++ tail /\
    (tail = "" \/ tail = String newline "") /\
    count_char "@" body = 1%nat /\
    (5 <= String.length body)%nat /\
    string_forall (fun c => email_part_char c || Ascii.eqb c "@") body = true.
Proof.
  apply (accepted_email_characters "ani.w+shop@toko-kita.co.id"). reflexivity.
Defined.

(* ------------------------------------------------------------------ *)
(** ** How new records start *)

(** X13.  A persistent record built from input that leaves these fields
    out starts without identity ([id] is [None], to be given by the
    database), with its counters at 0, with its [is_verified],
    [is_featured], [is_verified_purchase] and [is_default] flags off, and
    active. *)
Theorem new_records_start_clean
  (m : Model) (now : Z) (input vals : row) (name : string) :
  In m persistent_models ->
  validate_model now m input = Ok vals ->
  In name (names m) ->
  lookup name input = None ->
  (name = "id" -> lookup name vals = Some VNone) /\
  (In name zero_counters -> lookup name vals = Some (VInt 0)) /\
  (In name false_flags -> lookup name vals = Some (VBool false)) /\
  (name = "is_active" -> lookup name vals = Some (VBool true)).
Proof.
  intros Hm H Hin Hnone.
  entity_cases Hm; unfold names in Hin; field_cases Hin;
    repeat split; intros Hn;
    first [discriminate Hn
          | eapply validate_model_default; [exact H | reflexivity | reflexivity | exact Hnone]
          | exfalso; simpl in Hn; intuition discriminate].
Qed.

Lemma new_records_start_clean_witness :
  lookup "total_sales"
    (match validate_model 0 SellerProfile [("user_id", VInt 1); ("store_name", VStr "Toko")]
     with Ok vals => vals | Err _ => [] end) = Some (VInt 0).
Proof.
  apply (new_records_start_clean SellerProfile 0
           [("user_id", VInt 1); ("store_name", VStr "Toko")]).
  - unfold persistent_models. find_in_list.
  - reflexivity.
  - unfold names. simpl. tauto.
  - reflexivity.
  - unfold zero_counters. find_in_list.
Defined.

(** X14.  An order or a delivery built from input that leaves them out
    starts in status pending (each in its own enumeration), an order with
    payment status "pending", and with the fees [shipping_fee],
    [tax_amount], [discount_amount] and [insurance_fee] equal to zero. *)
Theorem orders_and_deliveries_start_pending
  (m : Model) (now : Z) (input vals : row) (name : string) :
  m = Order \/ m = Delivery ->
  validate_model now m input = Ok vals ->
  In name (names m) ->
  lookup name input = None ->
  (name = "status" ->
   lookup name vals
   = Some (if String.eqb (cls_name m) "Order"
           then order_status OrderStatus.PENDING
           else delivery_status DeliveryStatus.PENDING)) /\
  (name = "payment_status" -> lookup name vals = Some (VStr "pending")) /\
  (In name zero_fees ->
   exists d, lookup name vals = Some (VDecimal d) /\ Decimal_to_Q d == 0).
Proof.
  intros Hm H Hin Hnone.
  destruct Hm; subst m; unfold names in Hin; field_cases Hin;
    repeat split; intros Hn;
    first [discriminate Hn
          | eapply validate_model_default; [exact H | reflexivity | reflexivity | exact Hnone]
          | eexists; split;
            [eapply validate_model_default; [exact H | reflexivity | reflexivity | exact Hnone]
            |vm_compute; reflexivity]
          | exfalso; simpl in Hn; intuition discriminate].
Qed.

Lemma orders_and_deliveries_start_pending_witness :
  lookup "status"
    (match validate_model 0 Order order_data with Ok vals => vals | Err _ => [] end)
  = Some (VEnum "OrderStatus" "pending").
Proof.
  apply (orders_and_deliveries_start_pending Order 0 order_data).
  - left. reflexivity.
  - reflexivity.
  - unfold names. simpl. tauto.
  - reflexivity.
  - reflexivity.
Defined.
